(** * dashboard-rumah: housing-listings dashboard and KPR (mortgage) simulation

    A shallow embedding of [dashboard_rumah.py] / [dashboard_rumah_v2.py].
    The two scripts share the loader, the sidebar filter, the KPI block and
    the per-city tables; v2 adds the tab "Simulasi KPR".

    Modelling conventions
    - A DataFrame is the list of its rows in order; every row carries its
      index label, which filtering and sorting keep.
    - A numeric cell is [option Q]: [None] is NaN, [Some q] a finite value.
      Comparisons of finite floats are exact, so the filter is modelled
      without loss; infinities are not represented. Sums and quotients of
      cells (the means, [price_per_m2]) are exact: what is proved of their
      values is proved in exact arithmetic and says so. The division of the
      loader is read on binary64 as well ([Frame64]).
    - The KPR arithmetic is written once over an interface [PyFloat] of
      Python's float operators and read at two instances: exact rationals
      ([Q]) and IEEE-754 binary64 ([spec_float] with precision 53), which
      is what the script runs. A statement at [Q] is a statement in exact
      arithmetic and says so; what rounding changes is stated at
      [spec_float].
    - Text is a [string] of bytes, taken to be ASCII; [lower] and [strip]
      act on ASCII.
    - Library calls are read by their documented behaviour:
      [pd.to_numeric] through a parameter for the parsing of text cells,
      [sort_values] through a parameter for the sort (pandas' default
      [kind="quicksort"] fixes the order of the keys, not of equal keys),
      [Series.str.contains] as a regular-expression search on the patterns
      made of ordinary characters and the dot.
    - The nine columns named in the loader are present in the file. *)

From Stdlib Require Import QArith Qpower Qminmax Qround Lqa SpecFloat Ascii.
From stdpp Require Import list sorting strings.

Open Scope Q_scope.

(** ** Python exceptions and the error monad *)

Inductive exn : Set :=
| ZeroDivisionError
| OverflowError.

Definition result (A : Type) : Type := (exn + A)%type.

Definition raise {A} (e : exn) : result A := inl e.
Definition ret {A} (a : A) : result A := inr a.
Definition bind {A B} (m : result A) (k : A -> result B) : result B :=
  match m with
  | inl e => inl e
  | inr a => k a
  end.

Notation "'let*' x ':=' m 'in' k" := (bind m (fun x => k))
  (at level 10, x name, m at level 100, k at level 200).

(** ** Python float operators

    [of_int] is the promotion of an [int] operand; [fdiv] and [fpow] raise
    as [float.__truediv__] and [float.__pow__] do. *)

Class PyFloat (F : Type) := {
  of_int : Z -> F;
  fadd : F -> F -> F;
  fsub : F -> F -> F;
  fmul : F -> F -> F;
  fdiv : F -> F -> result F;
  fpow : F -> Z -> result F;
  fgt : F -> F -> bool;
  fle : F -> F -> bool
}.

(** Exact arithmetic: the formulas without rounding, overflow or NaN. *)
#[export] Instance Q_PyFloat : PyFloat Q := {|
  of_int := inject_Z;
  fadd := Qplus;
  fsub := Qminus;
  fmul := Qmult;
  fdiv := fun x y => if Qeq_bool y 0 then raise ZeroDivisionError else ret (x / y);
  fpow := fun x n =>
    if Qeq_bool x 0 && (n <? 0)%Z then raise ZeroDivisionError else ret (x ^ n);
  fgt := fun x y => negb (Qle_bool x y);
  fle := Qle_bool
|}.

(** ** Simulasi KPR (v2, tab 4) *)

Module KPR.

Record Simulasi (F : Type) : Type := {
  harga_rumah_rp : F;
  dp_rp : F;
  pokok_pinjaman : F;
  i_bulanan : F;
  n_bulan : Z;
  cicilan_bulanan : F;
  total_bayar : F;
  total_bunga : F
}.
Arguments harga_rumah_rp {F}.
Arguments dp_rp {F}.
Arguments pokok_pinjaman {F}.
Arguments i_bulanan {F}.
Arguments n_bulan {F}.
Arguments cicilan_bulanan {F}.
Arguments total_bayar {F}.
Arguments total_bunga {F}.

(** What the page has shown: the numeric arguments of the formatted
    strings are kept, the formatting is not. *)
Inductive widget (F : Type) : Type :=
| st_error (msg : string)
| st_metric (label : string) (value : F)
| st_write (label : string) (value : F)
| st_write_int (label : string) (a b : Z)
| st_markdown (text : string).
Arguments st_error {F}.
Arguments st_metric {F}.
Arguments st_write {F}.
Arguments st_write_int {F}.
Arguments st_markdown {F}.

(** A run of the button handler: the widgets rendered, in order, and the
    exception that ended it, if any. *)
Definition run (F : Type) : Type := (list (widget F) * option exn)%type.

Section Calculator.
Context {F : Type} `{PyFloat F}.

(** Lines 404-421: the arithmetic of the [else] branch. *)
Definition hitung_kpr (harga_juta : F) (dp_persen : Z)
    (bunga_tahunan : F) (tenor_tahun : Z) : result (Simulasi F) :=
  let harga_rumah_rp := fmul harga_juta (of_int 1000000) in
  let* dp_rp := fdiv (fmul harga_rumah_rp (of_int dp_persen)) (of_int 100) in
  let pokok_pinjaman := fsub harga_rumah_rp dp_rp in
  let* per_bulan := fdiv bunga_tahunan (of_int 12) in
  let* i_bulanan := fdiv per_bulan (of_int 100) in
  let n_bulan := (tenor_tahun * 12)%Z in
  let* cicilan_bulanan :=
    if fgt i_bulanan (of_int 0) then
      let* faktor := fpow (fadd (of_int 1) i_bulanan) (- n_bulan)%Z in
      fdiv (fmul pokok_pinjaman i_bulanan) (fsub (of_int 1) faktor)
    else
      fdiv pokok_pinjaman (of_int n_bulan) in
  let total_bayar := fmul cicilan_bulanan (of_int n_bulan) in
  let total_bunga := fsub total_bayar pokok_pinjaman in
  ret {| harga_rumah_rp := harga_rumah_rp;
         dp_rp := dp_rp;
         pokok_pinjaman := pokok_pinjaman;
         i_bulanan := i_bulanan;
         n_bulan := n_bulan;
         cicilan_bulanan := cicilan_bulanan;
         total_bayar := total_bayar;
         total_bunga := total_bunga |}.

(** Lines 423-438, up to the ratio line. *)
Definition ringkasan (bunga_tahunan : F) (tenor_tahun : Z)
    (r : Simulasi F) : list (widget F) :=
  [ st_metric "Harga Rumah" (harga_rumah_rp r);
    st_metric "DP" (dp_rp r);
    st_metric "Pokok Pinjaman" (pokok_pinjaman r);
    st_metric "Cicilan / bulan" (cicilan_bulanan r);
    st_markdown "Ringkasan Simulasi";
    st_write_int "Tenor" tenor_tahun (n_bulan r);
    st_write "Bunga tahunan" bunga_tahunan;
    st_write "Bunga efektif per bulan" (fmul (i_bulanan r) (of_int 100));
    st_write "Total yang dibayar ke bank" (total_bayar r);
    st_write "Total bunga selama tenor" (total_bunga r) ].

(** Lines 423-443: the ratio [total_bunga / pokok_pinjaman] is evaluated
    after every other figure has been rendered. *)
Definition tampilkan (bunga_tahunan : F) (tenor_tahun : Z)
    (r : Simulasi F) : run F :=
  let shown := ringkasan bunga_tahunan tenor_tahun r in
  match fdiv (total_bunga r) (pokok_pinjaman r) with
  | inl e => (shown, Some e)
  | inr rasio =>
      (shown ++ [ st_write "Rasio total bunga / pokok" rasio;
                  st_markdown "Catatan" ], None)
  end.

(** Lines 400-443: the handler of the button "Hitung Simulasi KPR". *)
Definition tombol_hitung (harga_juta : option F) (dp_persen : Z)
    (bunga_tahunan : F) (tenor_tahun : Z) : run F :=
  match harga_juta with
  | None => ([st_error "Harga rumah tidak valid."], None)
  | Some h =>
      if fle h (of_int 0) then ([st_error "Harga rumah tidak valid."], None)
      else
        match hitung_kpr h dp_persen bunga_tahunan tenor_tahun with
        | inl e => ([], Some e)
        | inr r => tampilkan bunga_tahunan tenor_tahun r
        end
  end.

Definition is_value (w : widget F) : bool :=
  match w with
  | st_metric _ _ | st_write _ _ | st_write_int _ _ _ => true
  | st_error _ | st_markdown _ => false
  end.

End Calculator.

End KPR.

(** ** IEEE-754 binary64, as CPython's [float] *)

Module B64.

Definition prec : Z := 53.
Definition emax : Z := 1024.

Definition of_Z (z : Z) : spec_float := binary_normalize prec emax z 0 false.

(** The float literal [m e k], for instance [1e-15]: the decimal [m * 10^k]
    rounded to nearest once. *)
Definition of_decimal (m : positive) (k : Z) : spec_float :=
  if (0 <=? k)%Z then of_Z (Z.pos m * 10 ^ k)
  else
    match (10 ^ (- k))%Z with
    | Z.pos d => SFdiv prec emax (S754_finite false m 0) (S754_finite false d 0)
    | _ => S754_nan
    end.

Definition is_zero (x : spec_float) : bool :=
  match x with
  | S754_zero _ => true
  | _ => false
  end.

Definition div (x y : spec_float) : result spec_float :=
  if is_zero y then raise ZeroDivisionError else ret (SFdiv prec emax x y).

(** [float ** int]. The C library's [pow] is not specified to the last bit;
    this reading rounds the exact power to nearest, which is what a
    correctly rounded [pow] returns. The runs on binary64 stated below
    either take the branch without [pow], or raise to the power -180 a
    base [1 + i] that is 1 or a few thousand units in the last place above
    1, where the exact power lies far closer to one float than to its
    neighbours. *)
Definition pow (x : spec_float) (n : Z) : result spec_float :=
  if (n =? 0)%Z then ret (of_Z 1)
  else
    match x with
    | S754_nan => ret S754_nan
    | S754_zero s =>
        if (n <? 0)%Z then raise ZeroDivisionError
        else ret (S754_zero (s && Z.odd n))
    | S754_infinity s =>
        if (n <? 0)%Z then ret (S754_zero (s && Z.odd n))
        else ret (S754_infinity (s && Z.odd n))
    | S754_finite s m e =>
        let k := Z.abs n in
        let sgn := s && Z.odd n in
        let mk := Z.pow (Z.pos m) k in
        let r :=
          if (n <? 0)%Z then
            match mk with
            | Z.pos p => SFdiv prec emax (of_Z 1) (S754_finite sgn p (e * k))
            | _ => S754_nan
            end
          else binary_normalize prec emax (if sgn then - mk else mk) (e * k) false in
        match r with
        | S754_infinity _ => raise OverflowError
        | _ => ret r
        end
    end.

(** The exact value of a finite float. *)
Definition to_Q (x : spec_float) : option Q :=
  match x with
  | S754_zero _ => Some 0
  | S754_finite s m e =>
      Some ((if s then - inject_Z (Z.pos m) else inject_Z (Z.pos m)) * 2 ^ e)
  | _ => None
  end.

(** A float that no comparison finds above zero: a zero, a NaN, or a
    value with the sign bit set. *)
Definition not_positive (x : spec_float) : Prop :=
  match x with
  | S754_zero _ | S754_nan => True
  | S754_infinity s | S754_finite s _ _ => s = true
  end.

End B64.

#[export] Instance B64_PyFloat : PyFloat spec_float := {|
  of_int := B64.of_Z;
  fadd := SFadd B64.prec B64.emax;
  fsub := SFsub B64.prec B64.emax;
  fmul := SFmul B64.prec B64.emax;
  fdiv := B64.div;
  fpow := B64.pow;
  fgt := fun x y => SFltb y x;
  fle := SFleb
|}.

(** ** Text: [str.strip], [str.lower], substring search and [re.search] *)

Module Text.

Definition is_space (c : ascii) : bool :=
  let n := nat_of_ascii c in
  ((9 <=? n) && (n <=? 13) || (28 <=? n) && (n <=? 32))%nat.

Fixpoint lstrip (s : string) : string :=
  match s with
  | String c s' => if is_space c then lstrip s' else s
  | EmptyString => EmptyString
  end.

(** [rstrip] keeps a character when it is not a space or when something
    that is kept follows it. *)
Fixpoint rstrip (s : string) : string :=
  match s with
  | EmptyString => EmptyString
  | String c s' =>
      match rstrip s' with
      | EmptyString => if is_space c then EmptyString else String c EmptyString
      | t => String c t
      end
  end.

Definition strip (s : string) : string := rstrip (lstrip s).

Definition lower_char (c : ascii) : ascii :=
  let n := nat_of_ascii c in
  if ((65 <=? n) && (n <=? 90))%nat then ascii_of_nat (n + 32) else c.

Fixpoint lower (s : string) : string :=
  match s with
  | EmptyString => EmptyString
  | String c s' => String (lower_char c) (lower s')
  end.

(** Python's truth value of a [str]. *)
Definition truthy (s : string) : bool :=
  match s with
  | EmptyString => false
  | String _ _ => true
  end.

(** [kw in s], the literal substring test. *)
Fixpoint occurs (kw s : string) : bool :=
  String.prefix kw s ||
  match s with
  | EmptyString => false
  | String _ s' => occurs kw s'
  end.

(** Regular expressions. [Series.str.contains(pat)] has [regex=True] by
    default: [pat] is compiled by [re.compile] and a cell matches when
    [re.search] finds it. The fragment read here is the patterns made of
    ordinary characters and the wildcard [.]; a pattern that uses any other
    special character is outside it and [re_compile] answers [None]. *)
Inductive atom : Set :=
| Lit (c : ascii)
| AnyChar.

Definition pattern : Set := list atom.

Definition is_special (c : ascii) : bool :=
  existsb (Ascii.eqb c) (String.list_ascii_of_string ".^$*+?{}[]\|()").

Fixpoint re_compile (pat : string) : option pattern :=
  match pat with
  | EmptyString => Some []
  | String c pat' =>
      if Ascii.eqb c "." then option_map (cons AnyChar) (re_compile pat')
      else if is_special c then None
      else option_map (cons (Lit c)) (re_compile pat')
  end.

(** [.] matches any character except a newline. *)
Definition atom_matches (a : atom) (c : ascii) : bool :=
  match a with
  | Lit c' => Ascii.eqb c' c
  | AnyChar => negb (Ascii.eqb c "010")
  end.

Fixpoint matches_here (p : pattern) (s : string) : bool :=
  match p with
  | [] => true
  | a :: p' =>
      match s with
      | EmptyString => false
      | String c s' => atom_matches a c && matches_here p' s'
      end
  end.

Fixpoint re_search (p : pattern) (s : string) : bool :=
  matches_here p s ||
  match s with
  | EmptyString => false
  | String _ s' => re_search p s'
  end.

End Text.

(** ** The listings table *)

Module Frame.

(** A cell of a numeric column as [read_csv] leaves it: parsed, still text
    (the column had a value that is not a number), or missing. *)
Inductive raw_cell : Type :=
| RNum (q : Q)
| RText (s : string)
| RNaN.

Record RawListing : Type := {
  raw_index : nat;
  raw_city : option string;
  raw_location : option string;
  raw_title : option string;
  raw_price : raw_cell;
  raw_area : raw_cell;
  raw_building_area : raw_cell;
  raw_bedrooms : raw_cell;
  raw_bathrooms : raw_cell;
  raw_garage : raw_cell
}.

Record Listing : Type := {
  index : nat;
  city : option string;
  location : option string;
  title : option string;
  price : option Q;
  area : option Q;
  building_area : option Q;
  bedrooms : option Q;
  bathrooms : option Q;
  garage : option Q;
  price_per_m2 : option Q
}.

Definition DataFrame : Type := list Listing.

(** *** load_data (lines 32-53) *)

(** [df["area"] > 0]: a comparison with NaN is [False]. *)
Definition gt_zero (x : option Q) : bool :=
  match x with
  | Some v => negb (Qle_bool v 0)
  | None => false
  end.

(** [df["price"] / df["area"]], cell by cell. A zero divisor gives a value
    that is not finite; [np.where] never selects it, it is read as [None]. *)
Definition divide (x y : option Q) : option Q :=
  match x, y with
  | Some a, Some b => if Qeq_bool b 0 then None else Some (a / b)
  | _, _ => None
  end.

(** [np.where(df["area"] > 0, df["price"] / df["area"], np.nan)] *)
Definition derive_price_per_m2 (p a : option Q) : option Q :=
  if gt_zero a then divide p a else None.

Section Loader.
(** The conversion of a text cell by [pd.to_numeric]: [None] when pandas
    cannot parse the text as a number. *)
Variable str_to_float : string -> option Q.

(** [pd.to_numeric(df[c], errors="coerce")] *)
Definition to_numeric (c : raw_cell) : option Q :=
  match c with
  | RNum q => Some q
  | RText s => str_to_float s
  | RNaN => None
  end.

Definition normalise (r : RawListing) : Listing :=
  let p := to_numeric (raw_price r) in
  let a := to_numeric (raw_area r) in
  {| index := raw_index r;
     city := raw_city r;
     location := raw_location r;
     title := raw_title r;
     price := p;
     area := a;
     building_area := to_numeric (raw_building_area r);
     bedrooms := to_numeric (raw_bedrooms r);
     bathrooms := to_numeric (raw_bathrooms r);
     garage := to_numeric (raw_garage r);
     price_per_m2 := derive_price_per_m2 p a |}.

Definition load_data (raw : list RawListing) : DataFrame := map normalise raw.

End Loader.

(** *** Sidebar filter (lines 69-139) *)

Record Criteria : Type := {
  filter_kota : list string;
  filter_price : Q * Q;
  filter_area : Q * Q;
  filter_bedrooms : Z;
  filter_bathrooms : Z;
  keyword : string
}.

(** [Series.isin(values)] with [values] a list of strings. *)
Definition isin (c : option string) (values : list string) : bool :=
  match c with
  | Some s => bool_decide (s ∈ values)
  | None => false
  end.

(** [Series.between(left, right)], [inclusive="both"]. *)
Definition between (x : option Q) (left right : Q) : bool :=
  match x with
  | Some v => Qle_bool left v && Qle_bool v right
  | None => false
  end.

(** [Series >= k] for an [int] bound. *)
Definition ge_int (x : option Q) (k : Z) : bool :=
  match x with
  | Some v => Qle_bool (inject_Z k) v
  | None => false
  end.

Definition mask (c : Criteria) (r : Listing) : bool :=
  isin (city r) (filter_kota c) &&
  between (price r) (fst (filter_price c)) (snd (filter_price c)) &&
  between (area r) (fst (filter_area c)) (snd (filter_area c)) &&
  ge_int (bedrooms r) (filter_bedrooms c) &&
  ge_int (bathrooms r) (filter_bathrooms c).

(** Lines 126-132. *)
Definition df_filtered (c : Criteria) (df : DataFrame) : DataFrame :=
  filter (fun r => mask c r) df.

(** [Series.str.lower()] and [Series.str.contains(kw, na=False)]. *)
Definition str_lower (s : option string) : option string :=
  option_map Text.lower s.

Definition str_contains (p : Text.pattern) (s : option string) : bool :=
  match s with
  | Some t => Text.re_search p t
  | None => false
  end.

Definition keyword_mask (p : Text.pattern) (r : Listing) : bool :=
  str_contains p (str_lower (title r)) || str_contains p (str_lower (location r)).

(** Lines 134-139. [None]: the keyword is outside the fragment of regular
    expressions that [Text.re_compile] reads. *)
Definition df_keyword (kw : string) (df : DataFrame) : option DataFrame :=
  if Text.truthy (Text.strip kw) then
    match Text.re_compile (Text.lower (Text.strip kw)) with
    | Some p => Some (filter (fun r => keyword_mask p r) df)
    | None => None
    end
  else Some df.

Definition filtered_view (c : Criteria) (df : DataFrame) : option DataFrame :=
  df_keyword (keyword c) (df_filtered c df).

End Frame.

(** ** The price per square metre on binary64 cells *)

Module Frame64.

(** [np.where(df["area"] > 0, df["price"] / df["area"], np.nan)] on
    float64 cells (lines 47-51): numpy divides without raising; a quotient
    out of range is [inf]. *)
Definition derive_price_per_m2 (price area : spec_float) : spec_float :=
  if SFltb (B64.of_Z 0) area then SFdiv B64.prec B64.emax price area
  else S754_nan.

End Frame64.

(** ** KPIs, per-city tables and the top listings (lines 141-244) *)

Module Agg.
Import Frame.

Definition Qle_decide (x y : Q) : Decision (x <= y) :=
  match Qlt_le_dec y x with
  | left H => right (Qlt_not_le y x H)
  | right H => left H
  end.
#[export] Existing Instance Qle_decide.

(** Pandas reductions skip NaN ([skipna=True]). *)
Definition dropna (l : list (option Q)) : list Q := omap id l.

Definition Qsum (l : list Q) : Q := foldr Qplus 0 l.

Definition mean (l : list (option Q)) : option Q :=
  match dropna l with
  | [] => None
  | xs => Some (Qsum xs / inject_Z (Z.of_nat (length xs)))
  end.

Definition median (l : list (option Q)) : option Q :=
  let xs := merge_sort Qle (dropna l) in
  let n := length xs in
  if (n =? 0)%nat then None
  else if Nat.odd n then xs !! (n / 2)%nat
  else
    match xs !! (n / 2 - 1)%nat, xs !! (n / 2)%nat with
    | Some a, Some b => Some ((a + b) / 2)
    | _, _ => None
    end.

Definition col_min (l : list (option Q)) : option Q :=
  match dropna l with
  | [] => None
  | x :: xs => Some (foldr Qmin x xs)
  end.

Definition col_max (l : list (option Q)) : option Q :=
  match dropna l with
  | [] => None
  | x :: xs => Some (foldr Qmax x xs)
  end.

(** Group keys of [groupby("city")]: the cities that occur, NaN dropped,
    in sorted order. It is also [kota_options] (line 72). *)
Definition kota_options (df : DataFrame) : list string :=
  merge_sort (fun a b => String.leb a b) (remove_dups (omap city df)).

Definition group (k : string) (df : DataFrame) : DataFrame :=
  filter (fun r => city r = Some k) df.

(** [df.groupby("city")[col].agg()] *)
Definition groupby_city (agg : list (option Q) -> option Q)
    (col : Listing -> option Q) (df : DataFrame) : list (string * option Q) :=
  map (fun k => (k, agg (map col (group k df)))) (kota_options df).

(** [int(x)] of a float: truncation toward zero. *)
Definition int_of (x : Q) : Z := Z.quot (Qnum x) (Z.pos (Qden x)).

(** The slider defaults (lines 72-116): every city, the full ranges, the
    least room counts, no keyword. [None] when a column has no number. *)
Definition default_criteria (df : DataFrame) : option Criteria :=
  lo_p ← col_min (map price df);
  hi_p ← col_max (map price df);
  lo_a ← col_min (map area df);
  hi_a ← col_max (map area df);
  bed ← col_min (map bedrooms df);
  bath ← col_min (map bathrooms df);
  Some {| filter_kota := kota_options df;
          filter_price := (lo_p, hi_p);
          filter_area := (lo_a, hi_a);
          filter_bedrooms := int_of bed;
          filter_bathrooms := int_of bath;
          keyword := "" |}.

(** The nine columns of the top-listings table. *)
Record TopListing : Type := {
  t_index : nat;
  t_city : option string;
  t_location : option string;
  t_title : option string;
  t_price : option Q;
  t_area : option Q;
  t_building_area : option Q;
  t_bedrooms : option Q;
  t_bathrooms : option Q;
  t_garage : option Q
}.

Definition columns9 (r : Listing) : TopListing :=
  {| t_index := index r;
     t_city := city r;
     t_location := location r;
     t_title := title r;
     t_price := price r;
     t_area := area r;
     t_building_area := building_area r;
     t_bedrooms := bedrooms r;
     t_bathrooms := bathrooms r;
     t_garage := garage r |}.

Record Page : Type := {
  total_listing : nat;
  avg_price : option Q;
  median_price : option Q;
  avg_area : option Q;
  avg_price_m2 : option Q;
  tab_city_price : list (string * option Q);
  tab_top_city : option (string * option Q);
  tab_city_area : list (string * option Q);
  tab_top_listings : list TopListing
}.

Inductive rendered : Type :=
| st_stop (warning : string)
| st_page (p : Page).

(** The text of [st.warning] on line 143, without its leading symbol. *)
Definition tidak_ada_data : string :=
  "Tidak ada data yang cocok dengan filter. Silakan atur ulang filter di sidebar.".

(** Descending order of a sort key, NaN last. *)
Definition desc (x y : option Q) : Prop :=
  match x, y with
  | Some a, Some b => b <= a
  | _, None => True
  | None, Some _ => False
  end.

Section Sorted.
(** [sort_values(key, ascending=False)], with pandas' defaults
    [kind="quicksort"] and [na_position="last"]. *)
Variable sort_values : forall A : Type, (A -> option Q) -> list A -> list A.

(** Lines 237-243. *)
Definition top_listings (top_n : nat) (df : DataFrame) : list TopListing :=
  map columns9 (take top_n (sort_values Listing price df)).

(** Lines 167-172 and 194-199. *)
Definition city_price (df : DataFrame) : list (string * option Q) :=
  sort_values (string * option Q)%type snd (groupby_city median price df).

(** Lines 215-220. *)
Definition city_area (df : DataFrame) : list (string * option Q) :=
  sort_values (string * option Q)%type snd (groupby_city mean area df).

(** Lines 141-244: the empty check, then the KPIs and the tables. The
    entry [tab_top_city] is [city_price.iloc[0]]; a filtered view that is not
    empty has a city in every row, hence a first group. *)
Definition render (top_n : nat) (df_filtered : DataFrame) : rendered :=
  match df_filtered with
  | [] => st_stop tidak_ada_data
  | _ =>
      st_page {| total_listing := length df_filtered;
                 avg_price := mean (map price df_filtered);
                 median_price := median (map price df_filtered);
                 avg_area := mean (map area df_filtered);
                 avg_price_m2 := mean (map price_per_m2 df_filtered);
                 tab_city_price := city_price df_filtered;
                 tab_top_city := head (city_price df_filtered);
                 tab_city_area := city_area df_filtered;
                 tab_top_listings := top_listings top_n df_filtered |}
  end.

End Sorted.

(** The contract of a descending sort: a rearrangement of the input in
    which every key is at least the keys after it. Which of two rows with
    equal keys comes first is left open, as it is for quicksort. *)
Definition sort_contract
    (sort_values : forall A : Type, (A -> option Q) -> list A -> list A) : Prop :=
  forall (A : Type) (key : A -> option Q) (l : list A),
    sort_values A key l ≡ₚ l /\
    StronglySorted (fun x y => desc (key x) (key y)) (sort_values A key l).

(** Two cells hold the same number. *)
Definition same_number (x y : option Q) : Prop :=
  match x, y with
  | Some a, Some b => a == b
  | _, _ => False
  end.

(** Rows with equal prices keep the order of their index labels. *)
Definition ties_in_original_order (out : list TopListing) : Prop :=
  forall i j x y,
    out !! i = Some x -> out !! j = Some y -> (i < j)%nat ->
    same_number (t_price x) (t_price y) -> (t_index x < t_index y)%nat.

End Agg.

(** ** Sorts that meet the contract *)

Module Sorts.
Import Agg.

Definition desc_decide (x y : option Q) : Decision (desc x y) :=
  match x, y with
  | Some a, Some b => Qle_decide b a
  | Some _, None => left I
  | None, None => left I
  | None, Some _ => right (fun H => H)
  end.
#[export] Existing Instance desc_decide.

(** Merge sort on the descending order. *)
Definition merge_desc (A : Type) (key : A -> option Q) (l : list A) : list A :=
  merge_sort (fun x y => desc (key x) (key y)) l.

(** Insertion into a list in ascending order of the key, NaN first; the
    new element goes before the elements with the same key. *)
Fixpoint insert_asc {A : Type} (key : A -> option Q) (x : A) (l : list A)
    : list A :=
  match l with
  | [] => [x]
  | y :: l' =>
      if decide (desc (key y) (key x)) then x :: l
      else y :: insert_asc key x l'
  end.

(** Insertion sort, ascending; rows with equal keys keep the order of the
    input. *)
Definition sort_asc {A : Type} (key : A -> option Q) (l : list A) : list A :=
  foldr (insert_asc key) [] l.

(** The ascending order read backwards: descending, NaN last, rows with
    equal keys in the reverse of the order of the input. *)
Definition asc_reversed (A : Type) (key : A -> option Q) (l : list A) : list A :=
  reverse (sort_asc key l).

End Sorts.

(** ** Sample data *)

Module Sample.
Import Frame.

(** A parser for unsigned decimal integers only; enough to read the sample
    rows, and like pandas it rejects ["abc"]. *)
Fixpoint digits (s : string) (acc : Z) : option Z :=
  match s with
  | EmptyString => Some acc
  | String c s' =>
      let n := nat_of_ascii c in
      if ((48 <=? n) && (n <=? 57))%nat
      then digits s' (10 * acc + Z.of_nat (n - 48))%Z
      else None
  end.

Definition parse_digits (s : string) : option Q :=
  match s with
  | EmptyString => None
  | _ => option_map inject_Z (digits s 0%Z)
  end.

Definition listing (i : nat) (kota judul : string) (harga luas : Q) : Listing :=
  {| index := i;
     city := Some kota;
     location := Some "Jl. Kemang Raya";
     title := Some judul;
     price := Some harga;
     area := Some luas;
     building_area := Some 90;
     bedrooms := Some 3;
     bathrooms := Some 2;
     garage := Some 1;
     price_per_m2 := derive_price_per_m2 (Some harga) (Some luas) |}.

(** Fifteen rows; rows 2, 5 and 9 share the price 2000, rows 0 and 7 the
    price 900. *)
Definition fifteen : DataFrame :=
  [ listing 0 "Bogor" "Rumah A" 900 100;
    listing 1 "Depok" "Rumah B" 1500 120;
    listing 2 "Jakarta" "Rumah C" 2000 150;
    listing 3 "Bekasi" "Rumah D" 750 90;
    listing 4 "Bogor" "Rumah E" 3100 200;
    listing 5 "Depok" "Rumah F" 2000 140;
    listing 6 "Jakarta" "Rumah G" 4200 300;
    listing 7 "Bekasi" "Rumah H" 900 95;
    listing 8 "Bogor" "Rumah I" 1250 110;
    listing 9 "Jakarta" "Rumah J" 2000 160;
    listing 10 "Depok" "Rumah K" 640 72;
    listing 11 "Bekasi" "Rumah L" 5400 410;
    listing 12 "Bogor" "Rumah M" 1800 130;
    listing 13 "Jakarta" "Rumah N" 2750 180;
    listing 14 "Depok" "Rumah O" 1100 100 ].

(** Two rows for the keyword search. *)
Definition kemang : Listing :=
  {| index := 0;
     city := Some "Jakarta";
     location := Some "Jl. Kemang Raya";
     title := Some "Rumah Asri";
     price := Some 3500;
     area := Some 200;
     building_area := Some 150;
     bedrooms := Some 4;
     bathrooms := Some 3;
     garage := Some 1;
     price_per_m2 := derive_price_per_m2 (Some 3500) (Some 200) |}.

Definition bintaro : Listing :=
  {| index := 1;
     city := Some "Tangerang";
     location := Some "Jln Bintaro Utama";
     title := Some "Cluster Baru";
     price := Some 1800;
     area := Some 120;
     building_area := None;
     bedrooms := Some 3;
     bathrooms := Some 2;
     garage := None;
     price_per_m2 := derive_price_per_m2 (Some 1800) (Some 120) |}.

(** Two raw rows; the price of the second is not a number. *)
Definition raw_listing (i : nat) (kota : string) (harga : raw_cell) : RawListing :=
  {| raw_index := i;
     raw_city := Some kota;
     raw_location := Some "Jl. Kemang Raya";
     raw_title := Some "Rumah";
     raw_price := harga;
     raw_area := RNum 100;
     raw_building_area := RText "80";
     raw_bedrooms := RNum 3;
     raw_bathrooms := RNum 2;
     raw_garage := RNaN |}.

Definition two_raw : list RawListing :=
  [ raw_listing 0 "Bogor" (RText "950");
    raw_listing 1 "Bogor" (RText "abc") ].

Definition everything : Criteria :=
  {| filter_kota := ["Bekasi"; "Bogor"; "Depok"; "Jakarta"; "Tangerang"];
     filter_price := (0, 100000);
     filter_area := (0, 100000);
     filter_bedrooms := 0;
     filter_bathrooms := 0;
     keyword := "" |}.

(** Two cities, prices from 1000 to 2000. *)
Definition mid_range : Criteria :=
  {| filter_kota := ["Depok"; "Jakarta"];
     filter_price := (1000, 2000);
     filter_area := (0, 100000);
     filter_bedrooms := 0;
     filter_bathrooms := 0;
     keyword := "" |}.

(** Every city deselected. *)
Definition no_city : Criteria :=
  {| filter_kota := [];
     filter_price := (0, 100000);
     filter_area := (0, 100000);
     filter_bedrooms := 0;
     filter_bathrooms := 0;
     keyword := "" |}.

End Sample.

(** ** The sum of the discount factors *)

Module Anuitas.

(** [deret n y = y + y^2 + ... + y^n]; with [y = 1/(1+i)] it is the present
    value of [n] unit payments. *)
Fixpoint deret (n : nat) (y : Q) : Q :=
  match n with
  | O => 0
  | S k => y * (1 + deret k y)
  end.

End Anuitas.

(** ** The filter predicates in the words of the specification *)

Module Spec.
Import Frame.

(** [city ∈ selected_cities] *)
Definition city_selected (c : Criteria) (r : Listing) : Prop :=
  exists k, city r = Some k /\ k ∈ filter_kota c.

(** [lo ≤ x ≤ hi], both ends included; a null cell is in no range. *)
Definition in_range (x : option Q) (lo hi : Q) : Prop :=
  exists v, x = Some v /\ lo <= v /\ v <= hi.

(** [x ≥ k]; a null cell is above no bound. *)
Definition at_least (x : option Q) (k : Z) : Prop :=
  exists v, x = Some v /\ inject_Z k <= v.

Definition satisfies (c : Criteria) (r : Listing) : Prop :=
  city_selected c r /\
  in_range (price r) (fst (filter_price c)) (snd (filter_price c)) /\
  in_range (area r) (fst (filter_area c)) (snd (filter_area c)) /\
  at_least (bedrooms r) (filter_bedrooms c) /\
  at_least (bathrooms r) (filter_bathrooms c).

Definition fails_one (c : Criteria) (r : Listing) : Prop :=
  ~ city_selected c r \/
  ~ in_range (price r) (fst (filter_price c)) (snd (filter_price c)) \/
  ~ in_range (area r) (fst (filter_area c)) (snd (filter_area c)) \/
  ~ at_least (bedrooms r) (filter_bedrooms c) \/
  ~ at_least (bathrooms r) (filter_bathrooms c).

(** The keyword, trimmed and lowered, occurs in the lowered text; a null
    text holds no keyword. *)
Definition occurs_in (kw : string) (s : option string) : bool :=
  match s with
  | Some t => Text.occurs (Text.lower (Text.strip kw)) (Text.lower t)
  | None => false
  end.

Definition keyword_occurs (kw : string) (r : Listing) : bool :=
  occurs_in kw (title r) || occurs_in kw (location r).

(** A keyword without special characters of regular expressions. *)
Definition plain (kw : string) : bool :=
  forallb (fun ch => negb (Text.is_special ch)) (String.list_ascii_of_string kw).

End Spec.

(** ** The listing picked for the simulation (v2, lines 352-374) *)

Module Tab4.
Import Frame.

Definition relabel (i : nat) (r : Listing) : Listing :=
  {| index := i;
     city := city r;
     location := location r;
     title := title r;
     price := price r;
     area := area r;
     building_area := building_area r;
     bedrooms := bedrooms r;
     bathrooms := bathrooms r;
     garage := garage r;
     price_per_m2 := price_per_m2 r |}.

(** [df_filtered.copy().reset_index(drop=True)] *)
Definition reset_index (df : DataFrame) : DataFrame := imap relabel df.

(** [df_sel.iloc[idx]]; [None] is the [IndexError] of a position past the
    end. *)
Definition selected_row (df_filtered : DataFrame) (idx : nat) : option Listing :=
  reset_index df_filtered !! idx.

(** [float(selected_row["price"])]: the outer [None] is the [IndexError],
    the inner one NaN. *)
Definition harga_juta (df_filtered : DataFrame) (idx : nat) : option (option Q) :=
  price <$> selected_row df_filtered idx.

End Tab4.

(** ** Words for the properties of the sidebar *)

Module Sidebar.
Import Frame.

(** No null in a column that the filter tests. *)
Definition complete (r : Listing) : Prop :=
  city r <> None /\ price r <> None /\ area r <> None /\
  bedrooms r <> None /\ bathrooms r <> None.

(** Every bound of [c] is at least as tight as the bound of [c']. *)
Definition narrower (c c' : Criteria) : Prop :=
  filter_kota c ⊆ filter_kota c' /\
  fst (filter_price c') <= fst (filter_price c) /\
  snd (filter_price c) <= snd (filter_price c') /\
  fst (filter_area c') <= fst (filter_area c) /\
  snd (filter_area c) <= snd (filter_area c') /\
  (filter_bedrooms c' <= filter_bedrooms c)%Z /\
  (filter_bathrooms c' <= filter_bathrooms c)%Z.

(** Two optional numbers are the same number, or both are missing. *)
Definition same_value (x y : option Q) : Prop :=
  match x, y with
  | Some a, Some b => a == b
  | None, None => True
  | _, _ => False
  end.

End Sidebar.

(** ** A further sample criteria *)

Module Sample2.
Import Frame.

(** One city, areas from 50. *)
Definition bogor_from_50 : Criteria :=
  {| filter_kota := ["Bogor"];
     filter_price := (0, 100000);
     filter_area := (50, 100000);
     filter_bedrooms := 0;
     filter_bathrooms := 0;
     keyword := "" |}.

End Sample2.

(** ** Words for the properties of the text and of the payment *)

Module Trim.

Definition no_leading_space (s : string) : Prop :=
  match s with
  | EmptyString => True
  | String c _ => Text.is_space c = false
  end.

End Trim.

Module Faktor.

(** The payment of line 416 or 418 for a principal of 1: the factor by
    which the principal is multiplied. *)
Definition faktor_cicilan (bunga : Q) (tenor : Z) : Q :=
  let i := bunga / 12 / 100 in
  let n := (tenor * 12)%Z in
  if Qle_bool i 0 then / inject_Z n else i / (1 - (1 + i) ^ (- n)).

End Faktor.

(** * Properties *)

(** ** The KPR simulation on exact numbers *)

Section KPR_exact.
Import KPR Anuitas.

Lemma Qeq_bool_false (x y : Q) : ~ x == y -> Qeq_bool x y = false.
Proof.
  intros Hne. destruct (Qeq_bool x y) eqn:E; [|reflexivity].
  apply Qeq_bool_eq in E. contradiction.
Qed.

Lemma rate_test (i : Q) : 0 < i -> negb (Qle_bool i 0) = true.
Proof.
  intros Hi. destruct (Qle_bool i 0) eqn:E; [|reflexivity].
  apply Qle_bool_imp_le in E. lra.
Qed.

Lemma rate_test_zero (i : Q) : i <= 0 -> negb (Qle_bool i 0) = false.
Proof.
  intros Hi. apply Qle_bool_iff in Hi. now rewrite Hi.
Qed.

Lemma inject_Z_nonzero (n : Z) : n <> 0%Z -> ~ inject_Z n == 0.
Proof.
  intros Hn E. unfold Qeq in E. simpl in E. lia.
Qed.

(** The discount factor [(1+i)^(-n)] stays away from 1. *)
Lemma faktor_lt_1 (i : Q) (n : Z) :
  0 < i -> (0 < n)%Z -> (1 + i) ^ (- n) < 1.
Proof.
  intros Hi Hn. rewrite Qpower_opp.
  assert (H1 : 1 < (1 + i) ^ n) by (apply Qpower_1_lt; [lra | exact Hn]).
  apply Qlt_shift_inv_r; lra.
Qed.

Lemma faktor_gt_1 (i : Q) (n : Z) :
  0 < i -> (n < 0)%Z -> 1 < (1 + i) ^ (- n).
Proof.
  intros Hi Hn. apply Qpower_1_lt; [lra | lia].
Qed.

Lemma penyebut_nonzero (i : Q) (n : Z) :
  0 < i -> n <> 0%Z -> ~ 1 - (1 + i) ^ (- n) == 0.
Proof.
  intros Hi Hn Heq.
  destruct (Z.lt_total n 0) as [Hneg | [H0 | Hpos]].
  - pose proof (faktor_gt_1 i n Hi Hneg). lra.
  - contradiction.
  - pose proof (faktor_lt_1 i n Hi Hpos). lra.
Qed.

Ltac run_constants :=
  unfold hitung_kpr; cbn -[Qpower Z.mul Qeq_bool Qle_bool];
  change (Qeq_bool (inject_Z 100) 0) with false;
  change (Qeq_bool (inject_Z 12) 0) with false;
  cbn -[Qpower Z.mul Qeq_bool Qle_bool];
  change (inject_Z 0) with 0; change (inject_Z 1) with 1;
  change (inject_Z 12) with 12; change (inject_Z 100) with 100.

(** The run of [hitung_kpr] when the monthly rate is positive. *)
Lemma hitung_kpr_rate_pos (harga_juta bunga : Q) (dp tenor : Z) :
  0 < bunga / 12 / 100 ->
  tenor <> 0%Z ->
  hitung_kpr harga_juta dp bunga tenor =
  ret (let price := harga_juta * 1000000 in
       let principal := price - price * inject_Z dp / 100 in
       let i := bunga / 12 / 100 in
       let n := (tenor * 12)%Z in
       let m := principal * i / (1 - (1 + i) ^ (- n)) in
       {| harga_rumah_rp := price;
          dp_rp := price * inject_Z dp / 100;
          pokok_pinjaman := principal;
          i_bulanan := i;
          n_bulan := n;
          cicilan_bulanan := m;
          total_bayar := m * inject_Z n;
          total_bunga := m * inject_Z n - principal |}).
Proof.
  intros Hi Ht. run_constants.
  rewrite (rate_test _ Hi).
  rewrite (Qeq_bool_false (1 + bunga / 12 / 100) 0) by lra.
  cbn -[Qpower Z.mul Qeq_bool Qle_bool].
  rewrite (Qeq_bool_false _ 0 (penyebut_nonzero _ (tenor * 12) Hi ltac:(lia))).
  reflexivity.
Qed.

(** With a tenor of zero the denominator [1 - (1+i)^0] is zero. *)
Lemma hitung_kpr_tenor_zero (harga_juta bunga : Q) (dp : Z) :
  0 < bunga / 12 / 100 ->
  hitung_kpr harga_juta dp bunga 0 = raise ZeroDivisionError.
Proof.
  intros Hi. run_constants.
  rewrite (rate_test _ Hi).
  rewrite (Qeq_bool_false (1 + bunga / 12 / 100) 0) by lra.
  reflexivity.
Qed.

(** The run of [hitung_kpr] when the monthly rate is not positive. *)
Lemma hitung_kpr_rate_nonpos (harga_juta bunga : Q) (dp tenor : Z) :
  bunga / 12 / 100 <= 0 ->
  tenor <> 0%Z ->
  hitung_kpr harga_juta dp bunga tenor =
  ret (let price := harga_juta * 1000000 in
       let principal := price - price * inject_Z dp / 100 in
       let n := (tenor * 12)%Z in
       let m := principal / inject_Z n in
       {| harga_rumah_rp := price;
          dp_rp := price * inject_Z dp / 100;
          pokok_pinjaman := principal;
          i_bulanan := bunga / 12 / 100;
          n_bulan := n;
          cicilan_bulanan := m;
          total_bayar := m * inject_Z n;
          total_bunga := m * inject_Z n - principal |}).
Proof.
  intros Hi Ht. run_constants.
  rewrite (rate_test_zero _ Hi).
  rewrite (Qeq_bool_false (inject_Z (tenor * 12)) 0)
    by (apply inject_Z_nonzero; lia).
  reflexivity.
Qed.

(** C1, in exact arithmetic. For every price in millions, down-payment
    percentage, annual rate with a positive monthly rate and tenor in
    years, the calculator multiplies the price by 1,000,000 and computes
    [down_payment = price * down_payment_pct / 100],
    [principal = price - down_payment],
    [monthly_rate = annual_rate_pct / 12 / 100],
    [n_months = tenor_years * 12],
    [monthly_payment = principal * monthly_rate / (1 - (1 + monthly_rate) ** (-n_months))],
    [total_paid = monthly_payment * n_months] and
    [total_interest = total_paid - principal]. At a tenor of zero the
    quotient has the divisor zero and Python raises. On binary64 every
    operation is rounded and the run can raise at other inputs too, as
    stated with the runs on binary64 below. *)
Theorem C1_annuity_formula (harga_juta annual_rate_pct : Q)
    (down_payment_pct tenor_years : Z) :
  0 < annual_rate_pct / 12 / 100 ->
  let price := harga_juta * 1000000 in
  let down_payment := price * inject_Z down_payment_pct / 100 in
  let principal := price - down_payment in
  let monthly_rate := annual_rate_pct / 12 / 100 in
  let n_months := (tenor_years * 12)%Z in
  let monthly_payment :=
    principal * monthly_rate / (1 - (1 + monthly_rate) ^ (- n_months)) in
  let total_paid := monthly_payment * inject_Z n_months in
  let total_interest := total_paid - principal in
  hitung_kpr harga_juta down_payment_pct annual_rate_pct tenor_years =
  if (tenor_years =? 0)%Z then raise ZeroDivisionError
  else ret {| harga_rumah_rp := price;
              dp_rp := down_payment;
              pokok_pinjaman := principal;
              i_bulanan := monthly_rate;
              n_bulan := n_months;
              cicilan_bulanan := monthly_payment;
              total_bayar := total_paid;
              total_bunga := total_interest |}.
Proof.
  intros Hi. cbv zeta.
  destruct (Z.eqb_spec tenor_years 0) as [-> | Hne].
  - now apply hitung_kpr_tenor_zero.
  - now rewrite hitung_kpr_rate_pos.
Qed.

(** The scenario of the specification: 1000 million, 20 % down, 8 % a
    year, 15 years. *)
Lemma C1_annuity_formula_witness :
  exists r, hitung_kpr 1000 20 8 15 = ret r /\
    pokok_pinjaman r == 800000000 /\ n_bulan r = 180%Z /\
    7645216 < cicilan_bulanan r < 7645217 /\ 0 < total_bunga r.
Proof.
  eexists. split.
  - apply (C1_annuity_formula 1000 8 20 15). reflexivity.
  - vm_compute. intuition congruence.
Defined.

(** C8 as stated, on exact numbers: with a monthly rate of zero the
    payment is [principal / n_months], the payments add up to the principal
    and the interest is zero. *)
Theorem C8_zero_rate_exact (harga_juta annual_rate_pct : Q)
    (down_payment_pct tenor_years : Z) :
  annual_rate_pct / 12 / 100 == 0 ->
  let price := harga_juta * 1000000 in
  let principal := price - price * inject_Z down_payment_pct / 100 in
  let n_months := (tenor_years * 12)%Z in
  0 < principal ->
  (0 < n_months)%Z ->
  exists r,
    hitung_kpr harga_juta down_payment_pct annual_rate_pct tenor_years = ret r /\
    pokok_pinjaman r = principal /\
    n_bulan r = n_months /\
    cicilan_bulanan r = principal / inject_Z n_months /\
    cicilan_bulanan r * inject_Z n_months == principal /\
    total_bayar r == principal /\
    total_bunga r == 0.
Proof.
  intros Hi price principal n_months HP Hn.
  assert (Hnz : ~ inject_Z n_months == 0)
    by (apply inject_Z_nonzero; lia).
  eexists. split.
  - apply hitung_kpr_rate_nonpos; [lra | subst n_months; lia].
  - cbn -[Qpower Z.mul]. fold price. fold principal. fold n_months.
    repeat split; try (field; exact Hnz).
Qed.

Lemma C8_zero_rate_exact_witness :
  exists r, hitung_kpr 50 0 0 15 = ret r /\
    pokok_pinjaman r = 50 * 1000000 - 50 * 1000000 * inject_Z 0 / 100 /\
    n_bulan r = (15 * 12)%Z /\
    cicilan_bulanan r =
      (50 * 1000000 - 50 * 1000000 * inject_Z 0 / 100) / inject_Z (15 * 12) /\
    cicilan_bulanan r * inject_Z (15 * 12) ==
      50 * 1000000 - 50 * 1000000 * inject_Z 0 / 100 /\
    total_bayar r == 50 * 1000000 - 50 * 1000000 * inject_Z 0 / 100 /\
    total_bunga r == 0.
Proof.
  apply (C8_zero_rate_exact 50 0 0 15); [reflexivity | reflexivity | lia].
Defined.

(** The principal and the number of months under the bounds of the sliders. *)
Lemma pokok_positive (harga_juta : Q) (dp : Z) :
  0 < harga_juta -> (0 <= dp <= 90)%Z ->
  0 < harga_juta * 1000000 - harga_juta * 1000000 * inject_Z dp / 100.
Proof.
  intros Hh [Hlo Hhi].
  assert (Hd : inject_Z dp <= 90).
  { change 90 with (inject_Z 90). rewrite <- Zle_Qle. exact Hhi. }
  assert (E : harga_juta * 1000000 - harga_juta * 1000000 * inject_Z dp / 100
              == harga_juta * 10000 * (100 - inject_Z dp)) by field.
  rewrite E. nra.
Qed.

(** The guard of the handler on binary64: a missing price and a price that
    is not above zero are rejected before anything is computed. *)
Lemma tombol_hitung_binary64_guard (h bunga : spec_float) (dp tenor : Z) :
  tombol_hitung (F:=spec_float) None dp bunga tenor =
    ([st_error "Harga rumah tidak valid."], None) /\
  (SFleb h (B64.of_Z 0) = true ->
   tombol_hitung (Some h) dp bunga tenor =
     ([st_error "Harga rumah tidak valid."], None)).
Proof.
  split; [reflexivity|]. intros Hle. unfold tombol_hitung.
  change (fle h (of_int 0)) with (SFleb h (B64.of_Z 0)). now rewrite Hle.
Qed.

(** C2, as the code has it. The handler rejects a price that is missing
    or not positive with the message "Harga rumah tidak valid." and shows
    no figure, on Python's floats as in exact arithmetic; it has no test of
    the principal or of the number of months. In exact arithmetic, under
    the bounds of the sliders (down payment 0..90, annual rate 1..20,
    tenor 1..30) and a positive price, the principal and the number of
    months are positive and the run ends without an exception, with every
    figure shown. *)
Theorem C2_price_guard_and_slider_bounds (harga_juta bunga : Q)
    (harga_juta64 bunga64 : spec_float) (dp tenor : Z) :
  tombol_hitung (F:=spec_float) None dp bunga64 tenor =
    ([st_error "Harga rumah tidak valid."], None) /\
  (SFleb harga_juta64 (B64.of_Z 0) = true ->
   tombol_hitung (Some harga_juta64) dp bunga64 tenor =
     ([st_error "Harga rumah tidak valid."], None)) /\
  tombol_hitung None dp bunga tenor = ([st_error "Harga rumah tidak valid."], None) /\
  (harga_juta <= 0 ->
   tombol_hitung (Some harga_juta) dp bunga tenor =
     ([st_error "Harga rumah tidak valid."], None)) /\
  (0 < harga_juta -> (0 <= dp <= 90)%Z -> 1 <= bunga <= 20 ->
   (1 <= tenor <= 30)%Z ->
   exists r rasio,
     hitung_kpr harga_juta dp bunga tenor = ret r /\
     0 < pokok_pinjaman r /\
     (0 < n_bulan r)%Z /\
     0 < i_bulanan r /\
     tombol_hitung (Some harga_juta) dp bunga tenor =
       (ringkasan bunga tenor r ++
        [st_write "Rasio total bunga / pokok" rasio; st_markdown "Catatan"],
        None)).
Proof.
  split; [reflexivity|].
  split; [exact (proj2 (tombol_hitung_binary64_guard harga_juta64 bunga64 dp tenor))|].
  split; [reflexivity|]. split.
  - intros Hle. unfold tombol_hitung. cbn -[hitung_kpr].
    change (inject_Z 0) with 0.
    apply Qle_bool_iff in Hle. now rewrite Hle.
  - intros Hh Hdp [Hb1 Hb2] Ht.
    pose proof (pokok_positive harga_juta dp Hh Hdp) as HP.
    assert (Hguard : Qle_bool harga_juta 0 = false).
    { destruct (Qle_bool harga_juta 0) eqn:E; [|reflexivity].
      apply Qle_bool_imp_le in E. lra. }
    assert (Hi : 0 < bunga / 12 / 100).
    { apply Qlt_shift_div_l; [reflexivity|].
      apply Qlt_shift_div_l; [reflexivity|]. lra. }
    pose proof (hitung_kpr_rate_pos harga_juta bunga dp tenor Hi ltac:(lia)) as Hr.
    cbv zeta in Hr.
    eexists. eexists.
    split; [exact Hr|]. split; [exact HP|].
    split; [cbn -[Z.mul]; lia|]. split; [exact Hi|].
    unfold tombol_hitung. cbn -[hitung_kpr tampilkan].
    change (inject_Z 0) with 0. rewrite Hguard, Hr.
    unfold tampilkan. cbn -[ringkasan Qpower Z.mul Qeq_bool].
    rewrite (Qeq_bool_false _ 0) by lra.
    reflexivity.
Qed.

Lemma C2_price_guard_and_slider_bounds_witness :
  tombol_hitung (Some (B64.of_Z 0)) 20 (B64.of_Z 8) 15 =
    ([st_error "Harga rumah tidak valid."], None) /\
  tombol_hitung (Some 0) 20 8 15 = ([st_error "Harga rumah tidak valid."], None) /\
  exists r rasio,
    hitung_kpr 1000 90 20 1 = ret r /\
    0 < pokok_pinjaman r /\
    (0 < n_bulan r)%Z /\
    0 < i_bulanan r /\
    tombol_hitung (Some 1000) 90 20 1 =
      (ringkasan 20 1 r ++
       [st_write "Rasio total bunga / pokok" rasio; st_markdown "Catatan"],
       None).
Proof.
  split; [|split].
  - apply (C2_price_guard_and_slider_bounds 0 8 (B64.of_Z 0) (B64.of_Z 8) 20 15).
    reflexivity.
  - apply (C2_price_guard_and_slider_bounds 0 8 (B64.of_Z 0) (B64.of_Z 8) 20 15).
    apply Qle_refl.
  - apply (C2_price_guard_and_slider_bounds 1000 20 (B64.of_Z 1000) (B64.of_Z 20) 90 1);
      [reflexivity | lia | split; discriminate | lia].
Defined.

(** C2 as stated fails. With a down payment of 100 % the principal is 0:
    the handler shows no error message, divides, renders nine figures, and
    is ended by the [ZeroDivisionError] of the ratio line. With a tenor of
    0 the annuity quotient raises [ZeroDivisionError]. The runs on Python's
    floats end the same way. *)
Lemma C2_no_principal_check :
  (exists shown,
     tombol_hitung (Some 1000) 100 8 15 = (shown, Some ZeroDivisionError) /\
     existsb (fun w => match w with st_error _ => true | _ => false end) shown = false /\
     length (filter (fun w => is_value w) shown) = 9%nat /\
     exists r, hitung_kpr 1000 100 8 15 = ret r /\ pokok_pinjaman r == 0) /\
  tombol_hitung (Some 1000) 20 8 0 = ([], Some ZeroDivisionError) /\
  (exists shown,
     tombol_hitung (Some (B64.of_Z 1000)) 100 (B64.of_Z 8) 15 =
       (shown, Some ZeroDivisionError) /\
     existsb (fun w => match w with st_error _ => true | _ => false end) shown = false /\
     length (filter (fun w => is_value w) shown) = 9%nat) /\
  tombol_hitung (Some (B64.of_Z 1000)) 20 (B64.of_Z 8) 0 =
    ([], Some ZeroDivisionError).
Proof.
  split; [|split; [|split]].
  - eexists. split; [vm_compute; reflexivity|].
    split; [reflexivity|]. split; [reflexivity|].
    eexists. split; [vm_compute; reflexivity | reflexivity].
  - vm_compute. reflexivity.
  - eexists. split; [vm_compute; reflexivity|].
    split; reflexivity.
  - vm_compute. reflexivity.
Qed.

(** *** Monotonicity of the payment *)

Lemma deret_nonneg n y : 0 <= y -> 0 <= deret n y.
Proof.
  intros Hy. induction n as [|k IH]; simpl; [lra | nra].
Qed.

Lemma deret_pos n y : 0 < y -> (0 < n)%nat -> 0 < deret n y.
Proof.
  intros Hy Hn. destruct n as [|k]; [lia|]. simpl.
  pose proof (deret_nonneg k y ltac:(lra)). nra.
Qed.

Lemma deret_le n y1 y2 : 0 <= y1 -> y1 <= y2 -> deret n y1 <= deret n y2.
Proof.
  intros H1 H2. induction n as [|k IH]; simpl; [lra|].
  pose proof (deret_nonneg k y1 H1). nra.
Qed.

Lemma deret_lt_arg n y1 y2 :
  0 < y1 -> y1 < y2 -> (0 < n)%nat -> deret n y1 < deret n y2.
Proof.
  intros H1 H2 Hn. destruct n as [|k]; [lia|]. simpl.
  pose proof (deret_nonneg k y1 ltac:(lra)).
  pose proof (deret_le k y1 y2 ltac:(lra) ltac:(lra)). nra.
Qed.

Lemma deret_lt_succ n y : 0 < y -> deret n y < deret (S n) y.
Proof.
  intros Hy. induction n as [|k IH].
  - simpl. lra.
  - change (deret (S (S k)) y) with (y * (1 + deret (S k) y)).
    change (deret (S k) y) with (y * (1 + deret k y)) at 1.
    nra.
Qed.

Lemma deret_lt_len n m y : 0 < y -> (n < m)%nat -> deret n y < deret m y.
Proof.
  intros Hy Hnm. induction Hnm as [|m' _ IH].
  - now apply deret_lt_succ.
  - pose proof (deret_lt_succ m' y Hy). lra.
Qed.

Lemma deret_closed (i : Q) (n : nat) :
  0 < i -> i * deret n (/ (1 + i)) == 1 - (/ (1 + i)) ^ Z.of_nat n.
Proof.
  intros Hi. induction n as [|k IH].
  - simpl. ring.
  - rewrite Nat2Z.inj_succ, <- Z.add_1_r.
    rewrite Qpower_plus by (intros E; assert (0 < / (1 + i)) by (apply Qinv_lt_0_compat; lra); lra).
    change (deret (S k) (/ (1 + i))) with (/ (1 + i) * (1 + deret k (/ (1 + i)))).
    set (y := / (1 + i)) in *.
    assert (Hy : y * (1 + i) == 1) by (unfold y; field; lra).
    change (y ^ 1) with y.
    transitivity (y * i + y * (i * deret k y)); [ring|].
    rewrite IH.
    transitivity (y * (1 + i) - y ^ Z.of_nat k * y); [ring|].
    rewrite Hy. reflexivity.
Qed.

Lemma faktor_as_power (i : Q) (n : nat) :
  (1 + i) ^ (- Z.of_nat n) == (/ (1 + i)) ^ Z.of_nat n.
Proof. rewrite Qpower_opp, Qinv_power. reflexivity. Qed.

(** The annuity payment is the principal divided by the sum of the
    discount factors. *)
Lemma anuitas_deret (P i : Q) (n : nat) :
  0 < i -> (0 < n)%nat ->
  P * i / (1 - (1 + i) ^ (- Z.of_nat n)) == P / deret n (/ (1 + i)).
Proof.
  intros Hi Hn.
  assert (Hy : 0 < / (1 + i)) by (apply Qinv_lt_0_compat; lra).
  pose proof (deret_pos n _ Hy Hn) as Hd.
  rewrite faktor_as_power, <- deret_closed by exact Hi.
  field. split; lra.
Qed.

Lemma Qdiv_lt_denominator (P a b : Q) :
  0 < P -> 0 < a -> a < b -> P / b < P / a.
Proof.
  intros HP Ha Hab. unfold Qdiv.
  assert (/ b < / a) by (apply -> Qinv_lt_contravar; lra).
  nra.
Qed.

Lemma monthly_rate_lt (rate rate' : Q) :
  rate < rate' -> rate / 12 / 100 < rate' / 12 / 100.
Proof.
  intros Hlt. unfold Qdiv.
  apply Qmult_lt_compat_r; [reflexivity|].
  apply Qmult_lt_compat_r; [reflexivity | exact Hlt].
Qed.

(** The payment of a run with a positive rate and a positive tenor. *)
Lemma cicilan_as_deret (harga_juta bunga : Q) (dp tenor : Z) :
  0 < bunga / 12 / 100 -> (0 < tenor)%Z ->
  exists r,
    hitung_kpr harga_juta dp bunga tenor = ret r /\
    cicilan_bulanan r ==
      (harga_juta * 1000000 - harga_juta * 1000000 * inject_Z dp / 100) /
      deret (Z.to_nat (tenor * 12)) (/ (1 + bunga / 12 / 100)).
Proof.
  intros Hi Ht. eexists. split.
  - apply hitung_kpr_rate_pos; [exact Hi | lia].
  - cbn -[Qpower Z.mul].
    replace (tenor * 12)%Z with (Z.of_nat (Z.to_nat (tenor * 12))) at 1 by lia.
    apply anuitas_deret; [exact Hi | lia].
Qed.

(** C7, in exact arithmetic. With a positive principal, a positive monthly
    rate and a positive tenor, a higher annual rate gives a strictly higher
    monthly payment and a longer tenor a strictly lower one. On binary64
    the payment computed is not monotone in the rate, as stated with the
    runs on binary64 below. *)
Theorem C7_payment_monotone (harga_juta rate rate' : Q) (dp tenor tenor' : Z) :
  0 < harga_juta * 1000000 - harga_juta * 1000000 * inject_Z dp / 100 ->
  0 < rate / 12 / 100 ->
  (0 < tenor)%Z ->
  rate < rate' ->
  (tenor < tenor')%Z ->
  exists r r_rate r_tenor,
    hitung_kpr harga_juta dp rate tenor = ret r /\
    hitung_kpr harga_juta dp rate' tenor = ret r_rate /\
    hitung_kpr harga_juta dp rate tenor' = ret r_tenor /\
    cicilan_bulanan r < cicilan_bulanan r_rate /\
    cicilan_bulanan r_tenor < cicilan_bulanan r.
Proof.
  intros HP Hi Ht Hrate Htenor.
  pose proof (monthly_rate_lt rate rate' Hrate) as Hii.
  assert (Hi' : 0 < rate' / 12 / 100) by lra.
  destruct (cicilan_as_deret harga_juta rate dp tenor Hi Ht) as (r & Hr & Er).
  destruct (cicilan_as_deret harga_juta rate' dp tenor Hi' Ht) as (r1 & Hr1 & Er1).
  destruct (cicilan_as_deret harga_juta rate dp tenor' Hi ltac:(lia))
    as (r2 & Hr2 & Er2).
  exists r, r1, r2. repeat (split; [assumption|]).
  set (y := / (1 + rate / 12 / 100)) in *.
  set (y' := / (1 + rate' / 12 / 100)) in *.
  assert (Hy' : 0 < y') by (apply Qinv_lt_0_compat; lra).
  assert (Hyy : y' < y) by (apply -> Qinv_lt_contravar; lra).
  assert (Hy : 0 < y) by lra.
  split.
  - rewrite Er, Er1. apply Qdiv_lt_denominator; [exact HP | |].
    + apply deret_pos; [exact Hy' | lia].
    + apply deret_lt_arg; [exact Hy' | exact Hyy | lia].
  - rewrite Er, Er2. apply Qdiv_lt_denominator; [exact HP | |].
    + apply deret_pos; [exact Hy | lia].
    + apply deret_lt_len; [exact Hy | lia].
Qed.

Lemma C7_payment_monotone_witness :
  exists r r_rate r_tenor,
    hitung_kpr 1000 20 8 15 = ret r /\
    hitung_kpr 1000 20 9 15 = ret r_rate /\
    hitung_kpr 1000 20 8 20 = ret r_tenor /\
    cicilan_bulanan r < cicilan_bulanan r_rate /\
    cicilan_bulanan r_tenor < cicilan_bulanan r.
Proof.
  apply (C7_payment_monotone 1000 8 9 20 15 20);
    [reflexivity | reflexivity | lia | reflexivity | lia].
Defined.

End KPR_exact.

(** ** The KPR simulation on binary64 *)

Section KPR_binary64.
Import KPR.

(** C8 as stated fails on Python's floats. Price 50 million, no down
    payment, rate 0, 15 years: the principal is 50,000,000, the payment
    50,000,000 / 180 is rounded, and 180 payments add up to
    6710886399999999 / 2^27 = 49,999,999.99999999..., below the principal;
    the interest shown is -2^-27, not 0. *)
Lemma C8_binary64_rounding :
  exists r,
    hitung_kpr (B64.of_Z 50) 0 (B64.of_Z 0) 15 = ret r /\
    B64.is_zero (i_bulanan r) = true /\
    B64.to_Q (pokok_pinjaman r) = Some (6710886400000000 # 134217728) /\
    B64.to_Q (total_bayar r) = Some (6710886399999999 # 134217728) /\
    SFeqb (total_bayar r) (pokok_pinjaman r) = false /\
    SFeqb (total_bunga r) (B64.of_Z 0) = false.
Proof.
  eexists. split; [vm_compute; reflexivity|].
  repeat split; vm_compute; reflexivity.
Qed.

(** C1 as stated fails on Python's floats. Price 1000 million, 20 % down,
    annual rate [1e-15], 15 years: the monthly rate is above zero, so the
    annuity branch runs, but [1 + monthly_rate] is rounded to 1, the power
    is 1, the divisor [1 - 1] is zero and the run ends in
    [ZeroDivisionError] with no payment computed and nothing shown. *)
Lemma C1_binary64_tiny_rate :
  let rate := B64.of_decimal 1 (-15) in
  (exists per_bulan i,
     fdiv rate (of_int 12) = ret per_bulan /\
     fdiv per_bulan (of_int 100) = ret i /\
     fgt i (of_int 0) = true /\
     fadd (of_int 1) i = B64.of_Z 1) /\
  hitung_kpr (B64.of_Z 1000) 20 rate 15 = raise ZeroDivisionError /\
  tombol_hitung (Some (B64.of_Z 1000)) 20 rate 15 = ([], Some ZeroDivisionError).
Proof.
  split.
  - eexists. eexists. split; [vm_compute; reflexivity|].
    split; [vm_compute; reflexivity|]. split; vm_compute; reflexivity.
  - split; vm_compute; reflexivity.
Qed.

(** C7 as stated fails on Python's floats. Price 1000 million, 20 % down,
    15 years: at the annual rate [1e-10] the payment computed is
    4776003237983720 / 2^30 = 4,447,999.63..., at the higher rate [1e-9] it
    is 4772185489592047 / 2^30 = 4,444,444.07..., which is lower. The
    divisor [1 - (1 + i) ** -180] keeps only the few digits in which
    [1 + i] differs from 1. *)
Lemma C7_binary64_not_monotone :
  let rate := B64.of_decimal 1 (-10) in
  let rate' := B64.of_decimal 1 (-9) in
  SFltb rate rate' = true /\
  exists r r',
    hitung_kpr (B64.of_Z 1000) 20 rate 15 = ret r /\
    hitung_kpr (B64.of_Z 1000) 20 rate' 15 = ret r' /\
    fgt (pokok_pinjaman r) (of_int 0) = true /\
    fgt (i_bulanan r) (of_int 0) = true /\
    B64.to_Q (cicilan_bulanan r) = Some (4776003237983720 # 1073741824) /\
    B64.to_Q (cicilan_bulanan r') = Some (4772185489592047 # 1073741824) /\
    SFltb (cicilan_bulanan r') (cicilan_bulanan r) = true.
Proof.
  split; [vm_compute; reflexivity|].
  eexists. eexists. split; [vm_compute; reflexivity|].
  split; [vm_compute; reflexivity|].
  repeat split; vm_compute; reflexivity.
Qed.


Lemma not_positive_test (x : spec_float) :
  B64.not_positive x -> SFltb (B64.of_Z 0) x = false.
Proof.
  destruct x as [s | s | | s m e]; simpl; intros H; subst; reflexivity.
Qed.

Lemma SFleb_not_positive (x : spec_float) :
  SFleb x (B64.of_Z 0) = true -> B64.not_positive x.
Proof.
  destruct x as [s | [|] | | [|] m e]; simpl;
    try reflexivity; try discriminate; auto.
Qed.

(** Rounding keeps the sign. *)
Lemma round_aux_sign (s : bool) (m e : Z) (l : location) :
  match binary_round_aux B64.prec B64.emax s m e l with
  | S754_zero _ | S754_nan => True
  | S754_infinity s' | S754_finite s' _ _ => s' = s
  end.
Proof.
  unfold binary_round_aux.
  destruct (shr_fexp _ _ _ _ _) as [mrs' e'].
  destruct (shr_fexp _ _ _ _ _) as [mrs'' e''].
  destruct (shr_m mrs''); [exact I | | exact I].
  destruct (_ <=? _)%Z; reflexivity.
Qed.

Lemma div_not_positive (x : spec_float) (my : positive) (ey : Z) :
  B64.not_positive x ->
  B64.not_positive (SFdiv B64.prec B64.emax x (S754_finite false my ey)).
Proof.
  destruct x as [s | s | | s m e]; simpl; intros H; subst;
    try exact I; try reflexivity.
  destruct (SFdiv_core_binary _ _ _ _ _ _) as [[mz ez] lz].
  pose proof (round_aux_sign (xorb true false) mz ez lz) as Hs.
  destruct (binary_round_aux _ _ _ _ _ _); simpl; auto.
Qed.

(** An annual rate that is not above zero on binary64: the monthly rate is
    not above zero either, the run takes the branch [principal / n_months]
    and computes what it computes at rate 0. *)
Lemma hitung_kpr_binary64_rate_not_positive
    (harga_juta bunga : spec_float) (dp tenor : Z) :
  SFleb bunga (B64.of_Z 0) = true ->
  match hitung_kpr harga_juta dp bunga tenor,
        hitung_kpr harga_juta dp (B64.of_Z 0) tenor with
  | inr r, inr r0 =>
      pokok_pinjaman r = pokok_pinjaman r0 /\
      cicilan_bulanan r = cicilan_bulanan r0 /\
      total_bayar r = total_bayar r0 /\
      total_bunga r = total_bunga r0
  | inl e, inl e0 => e = e0
  | _, _ => False
  end.
Proof.
  intros Hle. apply SFleb_not_positive in Hle.
  unfold hitung_kpr. cbn -[SFdiv SFmul SFsub SFadd SFltb B64.of_Z].
  unfold B64.div.
  change (B64.is_zero (B64.of_Z 100)) with false.
  change (B64.is_zero (B64.of_Z 12)) with false.
  cbn -[SFdiv SFmul SFsub SFadd SFltb B64.of_Z].
  rewrite (not_positive_test (SFdiv _ _ (SFdiv _ _ bunga _) _)).
  2:{ change (B64.of_Z 100) with (S754_finite false 7036874417766400 (-46)).
      apply div_not_positive.
      change (B64.of_Z 12) with (S754_finite false 6755399441055744 (-49)).
      now apply div_not_positive. }
  change (SFltb (B64.of_Z 0)
            (SFdiv B64.prec B64.emax
               (SFdiv B64.prec B64.emax (B64.of_Z 0) (B64.of_Z 12))
               (B64.of_Z 100))) with false.
  cbn -[SFdiv SFmul SFsub SFadd SFltb B64.of_Z].
  destruct (B64.is_zero (B64.of_Z (tenor * 12))); cbn; [reflexivity|].
  repeat split.
Qed.

End KPR_binary64.

(** ** The sidebar filter *)

Section Filter.
Import Frame Spec.

Lemma isin_spec (c : Criteria) (r : Listing) :
  isin (city r) (filter_kota c) = true <-> city_selected c r.
Proof.
  unfold isin, city_selected. destruct (city r) as [k|].
  - rewrite bool_decide_eq_true. split.
    + intros Hk. exists k. auto.
    + intros (k' & [= <-] & Hk). exact Hk.
  - split; [discriminate | intros (k & Hk & _); discriminate].
Qed.

Lemma between_spec (x : option Q) (lo hi : Q) :
  between x lo hi = true <-> in_range x lo hi.
Proof.
  unfold between, in_range. destruct x as [v|].
  - rewrite andb_true_iff, !Qle_bool_iff. split.
    + intros [Hlo Hhi]. exists v. auto.
    + intros (v' & [= <-] & Hlo & Hhi). auto.
  - split; [discriminate | intros (v & Hv & _); discriminate].
Qed.

Lemma ge_int_spec (x : option Q) (k : Z) :
  ge_int x k = true <-> at_least x k.
Proof.
  unfold ge_int, at_least. destruct x as [v|].
  - rewrite Qle_bool_iff. split.
    + intros Hk. exists v. auto.
    + intros (v' & [= <-] & Hk). exact Hk.
  - split; [discriminate | intros (v & Hv & _); discriminate].
Qed.

Lemma mask_spec (c : Criteria) (r : Listing) :
  mask c r = true <-> satisfies c r.
Proof.
  unfold mask, satisfies.
  rewrite !andb_true_iff, isin_spec, !between_spec, !ge_int_spec.
  tauto.
Qed.

Lemma mask_false_fails (c : Criteria) (r : Listing) :
  mask c r = false -> fails_one c r.
Proof.
  unfold mask, fails_one. intros Hm.
  rewrite <- isin_spec, <- !between_spec, <- !ge_int_spec.
  repeat (apply andb_false_iff in Hm; destruct Hm as [Hm | Hm]);
    rewrite Hm; auto.
Qed.

Lemma df_filtered_elem (c : Criteria) (df : DataFrame) (r : Listing) :
  r ∈ df_filtered c df <-> r ∈ df /\ mask c r = true.
Proof.
  unfold df_filtered. rewrite list_elem_of_filter, Is_true_true. tauto.
Qed.

Lemma df_keyword_elem (kw : string) (df v : DataFrame) (r : Listing) :
  df_keyword kw df = Some v -> r ∈ v -> r ∈ df.
Proof.
  unfold df_keyword. destruct (Text.truthy _); [|congruence].
  destruct (Text.re_compile _); [|discriminate].
  intros [= <-] Hr. now apply list_elem_of_filter in Hr as [_ Hr].
Qed.

Lemma filtered_view_elem (c : Criteria) (df v : DataFrame) (r : Listing) :
  filtered_view c df = Some v -> r ∈ v -> r ∈ df.
Proof.
  unfold filtered_view. intros Hv Hr.
  apply (df_keyword_elem _ _ _ _ Hv) in Hr.
  unfold df_filtered in Hr. now apply list_elem_of_filter in Hr as [_ Hr].
Qed.

(** C3. The filtered view is a part of the dataset, in the order of the
    dataset; every row in it satisfies the five predicates (city among the
    selected ones, price and area within their ranges with both ends
    included, bedrooms and bathrooms at least the minimum), and every row of
    the dataset that is not in it fails at least one of them. The keyword
    search that follows only removes rows, so its rows satisfy the five
    predicates too. *)
Theorem C3_filtered_view (c : Criteria) (df : DataFrame) :
  sublist (df_filtered c df) df /\
  (forall r, r ∈ df_filtered c df -> r ∈ df /\ satisfies c r) /\
  (forall r, r ∈ df -> r ∉ df_filtered c df -> fails_one c r) /\
  (forall view r, filtered_view c df = Some view -> r ∈ view ->
     r ∈ df /\ satisfies c r).
Proof.
  split; [apply sublist_filter|]. split; [|split].
  - intros r Hr. apply df_filtered_elem in Hr as [Hin Hm].
    split; [exact Hin | now apply mask_spec].
  - intros r Hin Hout. apply mask_false_fails.
    destruct (mask c r) eqn:Hm; [|reflexivity].
    exfalso. apply Hout, df_filtered_elem. auto.
  - intros view r Hv Hr. unfold filtered_view in Hv.
    apply (df_keyword_elem _ _ _ _ Hv) in Hr.
    apply df_filtered_elem in Hr as [Hin Hm].
    split; [exact Hin | now apply mask_spec].
Qed.

End Filter.

(** ** The empty view and the top listings *)

Section Empty.
Import Frame Agg.

Lemma df_filtered_no_city (c : Criteria) (df : DataFrame) :
  filter_kota c = [] -> df_filtered c df = [].
Proof.
  intros Hk. apply elem_of_nil_inv. intros r Hr.
  unfold df_filtered in Hr. apply list_elem_of_filter in Hr as [Hm _].
  apply Is_true_true in Hm. unfold mask, isin in Hm. rewrite Hk in Hm.
  destruct (city r) as [k|]; [|discriminate].
  assert (Hno : bool_decide (k ∈ @nil string) = false)
    by (apply bool_decide_eq_false_2, not_elem_of_nil).
  rewrite Hno in Hm. discriminate.
Qed.

Lemma df_keyword_nil (kw : string) (v : DataFrame) :
  df_keyword kw [] = Some v -> v = [].
Proof.
  unfold df_keyword. destruct (Text.truthy _); [|congruence].
  destruct (Text.re_compile _); [|discriminate].
  intros [= <-]. reflexivity.
Qed.

(** C4. With no city selected the filter keeps no row, and does so as a
    total function; a view without rows makes the page stop at the warning,
    and a page with KPIs, per-city tables and top listings is only built
    from a view that has rows. *)
Theorem C4_empty_result
    (sort_values : forall A : Type, (A -> option Q) -> list A -> list A)
    (top_n : nat) (c : Criteria) (df : DataFrame) :
  (filter_kota c = [] ->
   df_filtered c df = [] /\
   (Text.truthy (Text.strip (keyword c)) = false -> filtered_view c df = Some []) /\
   (forall v, filtered_view c df = Some v ->
      render sort_values top_n v = st_stop tidak_ada_data)) /\
  (forall v, length v = 0%nat ->
     render sort_values top_n v = st_stop tidak_ada_data) /\
  (forall v p, render sort_values top_n v = st_page p ->
     (0 < length v)%nat /\ total_listing p = length v).
Proof.
  split; [|split].
  - intros Hk. pose proof (df_filtered_no_city c df Hk) as Hnil.
    split; [exact Hnil|]. split.
    + intros Hkw. unfold filtered_view, df_keyword. now rewrite Hnil, Hkw.
    + intros v Hv. unfold filtered_view in Hv. rewrite Hnil in Hv.
      apply df_keyword_nil in Hv. now subst v.
  - intros v Hv. apply length_zero_iff_nil in Hv. now subst v.
  - intros v p Hp. destruct v as [|r v]; [discriminate|].
    injection Hp as <-. split; [simpl; lia | reflexivity].
Qed.

End Empty.

Section TopN.
Import Frame Agg Sorts.

Lemma desc_trans (x y z : option Q) : desc x y -> desc y z -> desc x z.
Proof.
  destruct x as [a|], y as [b|], z as [d|]; simpl; try tauto.
  intros; lra.
Qed.

Lemma desc_total (x y : option Q) : desc x y \/ desc y x.
Proof.
  destruct x as [a|], y as [b|]; simpl; try tauto.
  destruct (Qlt_le_dec a b); [right | left]; lra.
Qed.

#[local] Instance by_key_trans {A} (key : A -> option Q) :
  Transitive (fun x y => desc (key x) (key y)).
Proof. intros x y z. apply desc_trans. Qed.

#[local] Instance by_key_total {A} (key : A -> option Q) :
  Total (fun x y => desc (key x) (key y)).
Proof. intros x y. apply desc_total. Qed.

Lemma merge_desc_contract : sort_contract merge_desc.
Proof.
  intros A key l. unfold merge_desc. split.
  - apply merge_sort_Permutation.
  - apply (StronglySorted_merge_sort _).
Qed.

Lemma StronglySorted_take {A} (R : relation A) (n : nat) (l : list A) :
  StronglySorted R l -> StronglySorted R (take n l).
Proof.
  intros Hs. rewrite <- (take_drop n l) in Hs.
  exact (StronglySorted_app_1_l R _ _ Hs).
Qed.

Lemma insert_asc_Permutation {A} (key : A -> option Q) (x : A) (l : list A) :
  insert_asc key x l ≡ₚ x :: l.
Proof.
  induction l as [|y l IH]; simpl; [reflexivity|].
  destruct (decide (desc (key y) (key x))); [reflexivity|].
  rewrite IH. apply Permutation_swap.
Qed.

Lemma insert_asc_sorted {A} (key : A -> option Q) (x : A) (l : list A) :
  StronglySorted (fun a b => desc (key b) (key a)) l ->
  StronglySorted (fun a b => desc (key b) (key a)) (insert_asc key x l).
Proof.
  induction 1 as [|y l Hl IH Hy]; simpl.
  - repeat constructor.
  - destruct (decide (desc (key y) (key x))) as [Hxy | Hxy].
    + constructor; [now constructor|].
      constructor; [exact Hxy|].
      eapply Forall_impl; [exact Hy|]. intros z Hz. simpl in Hz.
      exact (desc_trans _ _ _ Hz Hxy).
    + constructor; [exact IH|].
      rewrite insert_asc_Permutation. constructor; [|exact Hy].
      destruct (desc_total (key y) (key x)); [contradiction | assumption].
Qed.

Lemma sort_asc_Permutation {A} (key : A -> option Q) (l : list A) :
  sort_asc key l ≡ₚ l.
Proof.
  induction l as [|x l IH]; simpl; [reflexivity|].
  now rewrite insert_asc_Permutation, IH.
Qed.

Lemma sort_asc_sorted {A} (key : A -> option Q) (l : list A) :
  StronglySorted (fun a b => desc (key b) (key a)) (sort_asc key l).
Proof.
  induction l as [|x l IH]; simpl; [constructor | now apply insert_asc_sorted].
Qed.

Lemma StronglySorted_reverse {A} (R : relation A) (l : list A) :
  StronglySorted R l -> StronglySorted (fun a b => R b a) (reverse l).
Proof.
  induction 1 as [|x l Hl IH Hx]; [constructor|].
  rewrite reverse_cons. apply StronglySorted_app_2.
  - intros a b Ha Hb. apply list_elem_of_singleton in Hb as ->.
    rewrite Forall_forall in Hx. apply Hx.
    rewrite elem_of_reverse in Ha. exact Ha.
  - exact IH.
  - repeat constructor.
Qed.

Lemma asc_reversed_contract : sort_contract asc_reversed.
Proof.
  intros A key l. unfold asc_reversed. split.
  - now rewrite reverse_Permutation, sort_asc_Permutation.
  - exact (StronglySorted_reverse _ _ (sort_asc_sorted key l)).
Qed.

(** C5, as the code has it. For every sort that meets the contract of
    [sort_values(ascending=False)], the table holds exactly min(N, rows)
    rows, each a row of the view, in descending order of price, and they
    are the highest priced: the table and the rows left out make up the
    view, and no row left out has a price above that of a row shown. The
    order of rows with equal prices is the sort's own. *)
Theorem C5_top_n_listings
    (sort_values : forall A : Type, (A -> option Q) -> list A -> list A)
    (top_n : nat) (view : DataFrame) :
  sort_contract sort_values ->
  let top := top_listings sort_values top_n view in
  length top = Nat.min top_n (length view) /\
  StronglySorted (fun x y => desc (t_price x) (t_price y)) top /\
  (forall t, t ∈ top -> exists r, r ∈ view /\ t = columns9 r) /\
  (exists rest,
     top ++ rest ≡ₚ map columns9 view /\
     forall t u, t ∈ top -> u ∈ rest -> desc (t_price t) (t_price u)).
Proof.
  intros Hsort top. destruct (Hsort Listing price view) as [Hperm Hsorted].
  subst top. unfold top_listings.
  change (map columns9 ?l) with (columns9 <$> l).
  split; [|split; [|split]].
  - rewrite length_fmap, length_take. now rewrite Hperm.
  - apply (StronglySorted_fmap columns9 (fun x y => desc (price x) (price y))).
    + intros x y Hxy. exact Hxy.
    + now apply StronglySorted_take.
  - intros t Ht. apply list_elem_of_fmap in Ht as (r & -> & Hr).
    exists r. split; [|reflexivity].
    rewrite <- Hperm. exact (elem_of_sublist _ _ _ Hr (sublist_take _ _)).
  - exists (columns9 <$> drop top_n (sort_values Listing price view)). split.
    + rewrite <- fmap_app, take_drop. now rewrite Hperm.
    + intros t u Ht Hu.
      apply list_elem_of_fmap in Ht as (r & -> & Hr).
      apply list_elem_of_fmap in Hu as (s & -> & Hs).
      rewrite <- (take_drop top_n (sort_values Listing price view)) in Hsorted.
      exact (StronglySorted_app_1_elem_of _ _ _ _ _ Hsorted Hr Hs).
Qed.

End TopN.

(** ** The keyword search, the loader and the nulls *)

Section Keyword.
Import Frame Spec Sample.

Lemma matches_here_literal (kw s : string) :
  Text.matches_here (map Text.Lit (String.list_ascii_of_string kw)) s =
  String.prefix kw s.
Proof.
  revert s. induction kw as [|a kw IH]; intros s; [now destruct s|].
  destruct s as [|b s]; [reflexivity|]. simpl.
  destruct (ascii_dec a b) as [-> | Hne].
  - rewrite Ascii.eqb_refl. apply IH.
  - apply Ascii.eqb_neq in Hne. now rewrite Hne.
Qed.

Lemma re_search_literal (kw s : string) :
  Text.re_search (map Text.Lit (String.list_ascii_of_string kw)) s =
  Text.occurs kw s.
Proof.
  induction s as [|b s IH].
  - simpl. now rewrite matches_here_literal.
  - change (Text.re_search ?p (String b s))
      with (Text.matches_here p (String b s) || Text.re_search p s).
    change (Text.occurs kw (String b s))
      with (String.prefix kw (String b s) || Text.occurs kw s).
    now rewrite matches_here_literal, IH.
Qed.

Lemma re_compile_plain (kw : string) :
  plain kw = true ->
  Text.re_compile kw = Some (map Text.Lit (String.list_ascii_of_string kw)).
Proof.
  unfold plain. induction kw as [|a kw IH]; [reflexivity|].
  simpl. intros Hp. apply andb_true_iff in Hp as [Ha Hkw].
  apply negb_true_iff in Ha.
  destruct (Ascii.eqb_spec a ".") as [-> | _]; [discriminate Ha|].
  rewrite Ha, (IH Hkw). reflexivity.
Qed.

(** On a keyword without special characters the regular-expression search
    of the code is the substring search of the specification. *)
Lemma keyword_plain_is_substring (kw : string) (df : DataFrame) :
  Text.truthy (Text.strip kw) = true ->
  plain (Text.lower (Text.strip kw)) = true ->
  df_keyword kw df = Some (filter (fun r => keyword_occurs kw r) df).
Proof.
  intros Ht Hp. unfold df_keyword. rewrite Ht, (re_compile_plain _ Hp).
  f_equal. apply list_filter_iff. intros r.
  unfold keyword_mask, keyword_occurs, str_contains, str_lower, occurs_in.
  destruct (title r), (location r); simpl; now rewrite ?re_search_literal.
Qed.

(** C6 at the keyword ["jl."]: the dot is read as a wildcard, so the row
    whose location is "Jln Bintaro Utama" is kept although "jl." occurs
    neither in its title nor in its location. *)
Theorem C6_keyword_read_as_regex :
  df_keyword "jl." [kemang; bintaro] = Some [kemang; bintaro] /\
  keyword_occurs "jl." kemang = true /\
  keyword_occurs "jl." bintaro = false.
Proof. repeat split; vm_compute; reflexivity. Qed.

End Keyword.

Section Loading.
Import Frame Spec Agg Sample.
Variable str_to_float : string -> option Q.

Lemma load_data_derived (raw : list RawListing) (r : Listing) :
  r ∈ load_data str_to_float raw ->
  price_per_m2 r = derive_price_per_m2 (price r) (area r).
Proof.
  unfold load_data. change (map ?f ?l) with (f <$> l).
  intros Hr. apply list_elem_of_fmap in Hr as (x & -> & _). reflexivity.
Qed.

Lemma gt_zero_spec (a : Q) : gt_zero (Some a) = true <-> 0 < a.
Proof.
  unfold gt_zero. rewrite negb_true_iff. split.
  - intros E. destruct (Qlt_le_dec 0 a) as [H | H]; [exact H|].
    apply Qle_bool_iff in H. congruence.
  - intros H. destruct (Qle_bool a 0) eqn:E; [|reflexivity].
    apply Qle_bool_imp_le in E. lra.
Qed.

Lemma derive_positive_area (p : option Q) (a : Q) :
  0 < a -> derive_price_per_m2 p (Some a) = option_map (fun x => x / a) p.
Proof.
  intros Ha. unfold derive_price_per_m2.
  rewrite (proj2 (gt_zero_spec a) Ha). unfold divide.
  destruct p as [x|]; [|reflexivity].
  destruct (Qeq_bool a 0) eqn:E; [|reflexivity].
  apply Qeq_bool_eq in E. lra.
Qed.

Lemma derive_other_area (p a : option Q) :
  gt_zero a = false -> derive_price_per_m2 p a = None.
Proof. intros E. unfold derive_price_per_m2. now rewrite E. Qed.

(** C9, with the quotient in exact arithmetic. In the loaded dataset
    [price_per_m2] is [price / area] where the area is positive and null
    elsewhere; the rows of every filtered view are rows of the loaded
    dataset, with the value they were loaded with; and where the area is
    positive and the price is known, [price_per_m2 * area] is the price.
    On binary64 the quotient is rounded and can leave the range of the
    floats, as stated at the sample data below. *)
Theorem C9_price_per_m2 (raw : list RawListing) (r : Listing) :
  r ∈ load_data str_to_float raw ->
  (forall a, area r = Some a -> 0 < a ->
     price_per_m2 r = option_map (fun p => p / a) (price r)) /\
  (forall a, area r = Some a -> a <= 0 -> price_per_m2 r = None) /\
  (area r = None -> price_per_m2 r = None) /\
  (forall a p, area r = Some a -> 0 < a -> price r = Some p ->
     exists v, price_per_m2 r = Some v /\ v * a == p) /\
  (forall c view r', filtered_view c (load_data str_to_float raw) = Some view ->
     r' ∈ view ->
     r' ∈ load_data str_to_float raw /\
     price_per_m2 r' = derive_price_per_m2 (price r') (area r')).
Proof.
  intros Hr. pose proof (load_data_derived raw r Hr) as Hd.
  split; [|split; [|split; [|split]]].
  - intros a Ha Hpos. rewrite Hd, Ha. now apply derive_positive_area.
  - intros a Ha Hle. rewrite Hd, Ha. apply derive_other_area.
    unfold gt_zero. apply Qle_bool_iff in Hle. now rewrite Hle.
  - intros Ha. rewrite Hd, Ha. reflexivity.
  - intros a p Ha Hpos Hp. rewrite Hd, Ha, Hp, derive_positive_area by exact Hpos.
    eexists. split; [reflexivity|]. field. lra.
  - intros c view r' Hv Hr'.
    pose proof (filtered_view_elem c _ _ _ Hv Hr') as Hin.
    split; [exact Hin | now apply (load_data_derived raw)].
Qed.

Lemma dropna_somes (l : list (option Q)) : dropna (map Some (dropna l)) = dropna l.
Proof.
  unfold dropna. induction l as [|[x|] l IH]; [reflexivity | | exact IH].
  change (omap id (Some x :: l)) with (x :: omap id l).
  change (omap id (map Some (x :: omap id l)))
    with (x :: omap id (map Some (omap id l))).
  now rewrite IH.
Qed.

Lemma mean_skips_nan (l : list (option Q)) : mean l = mean (map Some (dropna l)).
Proof. unfold mean. now rewrite dropna_somes. Qed.

Lemma null_filter_column (c : Criteria) (r : Listing) :
  price r = None \/ area r = None \/ bedrooms r = None \/ bathrooms r = None ->
  mask c r = false.
Proof.
  unfold mask. intros [H | [H | [H | H]]]; rewrite H; simpl;
    rewrite ?andb_false_r; reflexivity.
Qed.

(** C10, as the code has it. A text that pandas cannot parse becomes a
    null cell; the loader drops no row; a mean skips the nulls. A row whose
    price, area, bedrooms or bathrooms is null fails the predicate of that
    column and is in no filtered view; the other columns (building area,
    garage) play no part in the filter, so a row that satisfies the five
    predicates is listed whatever they hold. *)
Theorem C10_coerced_nulls (raw : list RawListing) (s : string) :
  str_to_float s = None ->
  to_numeric str_to_float (RText s) = None /\
  length (load_data str_to_float raw) = length raw /\
  map index (load_data str_to_float raw) = map raw_index raw /\
  (forall l, mean l = mean (map Some (dropna l))) /\
  (forall c df r,
     price r = None \/ area r = None \/ bedrooms r = None \/ bathrooms r = None ->
     r ∉ df_filtered c df) /\
  (forall c df r, r ∈ df -> satisfies c r -> r ∈ df_filtered c df).
Proof.
  intros Hs. split; [exact Hs|]. split; [apply length_map|].
  split; [unfold load_data; rewrite map_map; reflexivity|].
  split; [exact mean_skips_nan|]. split.
  - intros c df r Hnull Hin. unfold df_filtered in Hin.
    apply list_elem_of_filter in Hin as [Hm _]. apply Is_true_true in Hm.
    rewrite (null_filter_column c r Hnull) in Hm. discriminate.
  - intros c df r Hin Hsat. unfold df_filtered.
    apply list_elem_of_filter. split; [|exact Hin].
    apply Is_true_true. unfold mask, satisfies in *.
    destruct Hsat as ((k & Hk & Hin') & (p & Hp & Hp1 & Hp2) & (a & Ha & Ha1 & Ha2)
                      & (b & Hb & Hb1) & (t & Ht & Ht1)).
    rewrite Hk, Hp, Ha, Hb, Ht. simpl.
    rewrite (bool_decide_eq_true_2 _ Hin').
    apply Qle_bool_iff in Hp1, Hp2, Ha1, Ha2, Hb1, Ht1.
    now rewrite Hp1, Hp2, Ha1, Ha2, Hb1, Ht1.
Qed.

End Loading.

(** ** The statements at the sample data *)

Section Examples.
Import Frame Spec Agg Sorts Sample.

Lemma C3_filtered_view_witness :
  sublist (df_filtered mid_range fifteen) fifteen /\
  satisfies mid_range (listing 2 "Jakarta" "Rumah C" 2000 150) /\
  fails_one mid_range (listing 0 "Bogor" "Rumah A" 900 100).
Proof.
  destruct (C3_filtered_view mid_range fifteen) as (Hsub & Hin & Hout & _).
  split; [exact Hsub|]. split.
  - apply Hin. apply df_filtered_elem. split; [|reflexivity].
    apply list_elem_of_In. simpl. auto 20.
  - apply Hout.
    + apply list_elem_of_In. simpl. auto 20.
    + intros H. apply df_filtered_elem in H as [_ H]. discriminate H.
Defined.

Lemma C4_empty_result_witness :
  df_filtered no_city fifteen = [] /\
  filtered_view no_city fifteen = Some [] /\
  render merge_desc 10 [] = st_stop tidak_ada_data.
Proof.
  destruct (C4_empty_result merge_desc 10 no_city fifteen) as (Hcity & Hstop & _).
  destruct (Hcity eq_refl) as (Hnil & Hview & _).
  split; [exact Hnil|]. split; [exact (Hview eq_refl) | exact (Hstop [] eq_refl)].
Defined.

(** Ten of fifteen rows. *)
Lemma C5_top_n_listings_witness :
  let top := top_listings asc_reversed 10 (df_filtered everything fifteen) in
  length top = 10%nat /\
  StronglySorted (fun x y => desc (t_price x) (t_price y)) top /\
  (forall t, t ∈ top ->
     exists r, r ∈ df_filtered everything fifteen /\ t = columns9 r) /\
  (exists rest,
     top ++ rest ≡ₚ map columns9 (df_filtered everything fifteen) /\
     forall t u, t ∈ top -> u ∈ rest -> desc (t_price t) (t_price u)).
Proof.
  exact (C5_top_n_listings asc_reversed 10 (df_filtered everything fifteen)
           asc_reversed_contract).
Defined.

(** C5 as stated fails: nothing in the call
    [sort_values("price", ascending=False)] keeps rows of equal price in
    the order of the dataset. A sort that orders the rows by ascending
    price and reads the result backwards meets the contract and returns the
    rows 2, 5 and 9, all priced 2000, as 9, 5, 2. *)
Lemma C5_equal_prices_reordered :
  sort_contract asc_reversed /\
  map t_index (top_listings asc_reversed 10 fifteen) =
    [11; 6; 4; 13; 9; 5; 2; 12; 1; 8]%nat /\
  ~ ties_in_original_order (top_listings asc_reversed 10 fifteen) /\
  ~ (forall sort_values, sort_contract sort_values ->
       forall top_n view,
         ties_in_original_order (top_listings sort_values top_n view)).
Proof.
  assert (Hno : ~ ties_in_original_order (top_listings asc_reversed 10 fifteen)).
  { intros Hties.
    pose proof (Hties 4%nat 5%nat _ _ eq_refl eq_refl ltac:(lia)) as H.
    assert (Hlt : (9 < 5)%nat) by (apply H; reflexivity).
    lia. }
  split; [exact asc_reversed_contract|]. split; [vm_compute; reflexivity|].
  split; [exact Hno|].
  intros Hall.
  exact (Hno (Hall asc_reversed asc_reversed_contract 10%nat fifteen)).
Qed.

Lemma C9_price_per_m2_witness :
  exists v,
    price_per_m2 (normalise parse_digits (raw_listing 0 "Bogor" (RText "950")))
      = Some v /\
    v * 100 == 950.
Proof.
  assert (Hin : normalise parse_digits (raw_listing 0 "Bogor" (RText "950"))
                ∈ load_data parse_digits two_raw) by apply list_elem_of_here.
  destruct (C9_price_per_m2 parse_digits two_raw _ Hin) as (_ & _ & _ & Hround & _).
  exact (Hround 100 950 eq_refl eq_refl eq_refl).
Defined.

(** C9 as stated fails on float64 cells. A row with the price [1e200] and
    the area [1e-200]: the area is above zero, the quotient is beyond the
    largest float and is stored as [inf], and [inf * area] is [inf], which
    no tolerance brings back to the price. *)
Lemma C9_binary64_overflow :
  let price := B64.of_decimal 1 200 in
  let area := B64.of_decimal 1 (-200) in
  SFltb (B64.of_Z 0) area = true /\
  Frame64.derive_price_per_m2 price area = S754_infinity false /\
  SFmul B64.prec B64.emax (Frame64.derive_price_per_m2 price area) area =
    S754_infinity false /\
  SFeqb (SFmul B64.prec B64.emax (Frame64.derive_price_per_m2 price area) area)
        price = false.
Proof. repeat split; vm_compute; reflexivity. Qed.

Lemma C10_coerced_nulls_witness :
  to_numeric parse_digits (RText "abc") = None /\
  length (load_data parse_digits two_raw) = 2%nat /\
  map index (load_data parse_digits two_raw) = [0; 1]%nat /\
  mean [Some 4; None; Some 6] = mean [Some 4; Some 6] /\
  (normalise parse_digits (raw_listing 1 "Bogor" (RText "abc"))
     ∉ df_filtered everything (load_data parse_digits two_raw)) /\
  bintaro ∈ df_filtered everything [kemang; bintaro].
Proof.
  destruct (C10_coerced_nulls parse_digits two_raw "abc" eq_refl)
    as (Hnull & Hlen & Hidx & Hmean & Hout & Hin).
  split; [exact Hnull|]. split; [exact Hlen|]. split; [exact Hidx|].
  split; [exact (Hmean [Some 4; None; Some 6])|]. split.
  - apply Hout. left. reflexivity.
  - apply Hin; [apply list_elem_of_In; simpl; auto|].
    apply mask_spec. reflexivity.
Defined.

(** C10 as stated fails for the columns of the filter. The second raw row
    has the price "abc": it is loaded with a null price, and under the
    slider defaults (every city, full ranges) the listing shows the first
    row only. *)
Lemma C10_null_price_row_not_listed :
  let df := load_data parse_digits two_raw in
  exists r c,
    df !! 1%nat = Some r /\
    price r = None /\
    default_criteria df = Some c /\
    map index (df_filtered c df) = [0%nat] /\
    r ∉ df_filtered c df.
Proof.
  eexists. eexists. split; [reflexivity|]. split; [reflexivity|].
  split; [vm_compute; reflexivity|]. split; [vm_compute; reflexivity|].
  intros H. apply df_filtered_elem in H as [_ H]. discriminate H.
Qed.

End Examples.

(** * Further properties of the code *)

(** ** Composition of filters *)

Section FilterAlgebra.
Import Frame Spec Sidebar.

(** X2. Two filters in a row keep the rows that pass both, whatever the
    order in which they are applied. *)
Theorem X2_filter_compose (c1 c2 : Criteria) (df : DataFrame) :
  df_filtered c1 (df_filtered c2 df) = df_filtered c2 (df_filtered c1 df) /\
  (forall r, r ∈ df_filtered c1 (df_filtered c2 df) <->
             r ∈ df /\ satisfies c1 r /\ satisfies c2 r).
Proof.
  split.
  - unfold df_filtered.
    rewrite (list_filter_filter (fun r => Is_true (mask c1 r))
                                (fun r => Is_true (mask c2 r))).
    rewrite (list_filter_filter (fun r => Is_true (mask c2 r))
                                (fun r => Is_true (mask c1 r))).
    apply list_filter_iff. tauto.
  - intros r. rewrite !df_filtered_elem, !mask_spec. tauto.
Qed.

Lemma narrower_satisfies (c c' : Criteria) (r : Listing) :
  narrower c c' -> satisfies c r -> satisfies c' r.
Proof.
  intros (Hk & Hp1 & Hp2 & Ha1 & Ha2 & Hb & Ht).
  intros ((k & Ek & Hin) & (p & Ep & Hp) & (a & Ea & Ha) & (b & Eb & Hb')
          & (t & Et & Ht')).
  rewrite Zle_Qle in Hb, Ht.
  repeat split.
  - exists k. split; [exact Ek | now apply Hk].
  - exists p. split; [exact Ep | split; lra].
  - exists a. split; [exact Ea | split; lra].
  - exists b. split; [exact Eb | lra].
  - exists t. split; [exact Et | lra].
Qed.

Lemma sublist_filter_impl {A} (P1 P2 : A -> Prop)
    `{!forall x, Decision (P1 x)} `{!forall x, Decision (P2 x)} (l : list A) :
  (forall x, P1 x -> P2 x) -> sublist (filter P1 l) (filter P2 l).
Proof.
  intros Himp. induction l as [|x l IH]; [constructor|].
  rewrite !filter_cons.
  destruct (decide (P1 x)) as [H1 | H1], (decide (P2 x)) as [H2 | H2].
  - now apply sublist_skip.
  - destruct H2. auto.
  - now apply sublist_cons.
  - exact IH.
Qed.

(** X3. Tightening the criteria can only remove rows: the view of the
    narrower criteria is a part of the view of the wider ones, in the same
    order. *)
Theorem X3_filter_monotone (c c' : Criteria) (df : DataFrame) :
  narrower c c' -> sublist (df_filtered c df) (df_filtered c' df).
Proof.
  intros Hn. unfold df_filtered. apply sublist_filter_impl.
  intros r Hr. apply Is_true_true, mask_spec.
  apply Is_true_true, mask_spec in Hr. eauto using narrower_satisfies.
Qed.

End FilterAlgebra.

(** ** Labels and slider defaults *)

Section SidebarDefaults.
Import Frame Spec Agg Sidebar.

Lemma df_keyword_sublist (kw : string) (df v : DataFrame) :
  df_keyword kw df = Some v -> sublist v df.
Proof.
  unfold df_keyword. destruct (Text.truthy _); [|now intros [= <-]].
  destruct (Text.re_compile _); [|discriminate].
  intros [= <-]. apply sublist_filter.
Qed.

(** X4. Filtering keeps the index labels of the rows and their order: the
    labels of a view are a part of the labels of the dataset, so labels
    that were distinct stay distinct. *)
Theorem X4_view_keeps_labels (c : Criteria) (df view : DataFrame) :
  filtered_view c df = Some view ->
  sublist (index <$> view) (index <$> df) /\
  (NoDup (index <$> df) -> NoDup (index <$> view)).
Proof.
  intros Hv. unfold filtered_view in Hv.
  assert (Hsub : sublist (index <$> view) (index <$> df)).
  { apply fmap_sublist. etransitivity; [exact (df_keyword_sublist _ _ _ Hv)|].
    apply sublist_filter. }
  split; [exact Hsub|]. intros Hnd. exact (sublist_NoDup _ _ Hnd Hsub).
Qed.

Lemma foldr_Qmin_le (x : Q) (xs : list Q) (v : Q) :
  v ∈ x :: xs -> foldr Qmin x xs <= v.
Proof.
  induction xs as [|a xs IH]; simpl.
  - intros Hv. apply list_elem_of_singleton in Hv as ->. apply Qle_refl.
  - intros Hv. apply elem_of_cons in Hv as [-> | Hv].
    + eapply Qle_trans; [apply Q.le_min_r|]. apply IH, list_elem_of_here.
    + apply elem_of_cons in Hv as [-> | Hv].
      * apply Q.le_min_l.
      * eapply Qle_trans; [apply Q.le_min_r|].
        apply IH. now apply list_elem_of_further.
Qed.

Lemma foldr_Qmax_ge (x : Q) (xs : list Q) (v : Q) :
  v ∈ x :: xs -> v <= foldr Qmax x xs.
Proof.
  induction xs as [|a xs IH]; simpl.
  - intros Hv. apply list_elem_of_singleton in Hv as ->. apply Qle_refl.
  - intros Hv. apply elem_of_cons in Hv as [-> | Hv].
    + eapply Qle_trans; [|apply Q.le_max_r]. apply IH, list_elem_of_here.
    + apply elem_of_cons in Hv as [-> | Hv].
      * apply Q.le_max_l.
      * eapply Qle_trans; [|apply Q.le_max_r].
        apply IH. now apply list_elem_of_further.
Qed.

Lemma elem_of_dropna (l : list (option Q)) (v : Q) :
  v ∈ dropna l <-> Some v ∈ l.
Proof.
  unfold dropna. rewrite list_elem_of_omap. split.
  - intros (x & Hx & Ex). simpl in Ex. now subst x.
  - intros Hv. exists (Some v). auto.
Qed.

Lemma col_min_le (l : list (option Q)) (m v : Q) :
  col_min l = Some m -> Some v ∈ l -> m <= v.
Proof.
  unfold col_min. intros Hm Hv. apply elem_of_dropna in Hv.
  destruct (dropna l) as [|x xs]; [discriminate|].
  injection Hm as <-. now apply foldr_Qmin_le.
Qed.

Lemma col_max_ge (l : list (option Q)) (m v : Q) :
  col_max l = Some m -> Some v ∈ l -> v <= m.
Proof.
  unfold col_max. intros Hm Hv. apply elem_of_dropna in Hv.
  destruct (dropna l) as [|x xs]; [discriminate|].
  injection Hm as <-. now apply foldr_Qmax_ge.
Qed.

Lemma col_min_elem (l : list (option Q)) (m : Q) :
  col_min l = Some m -> exists v, Some v ∈ l /\ v == m.
Proof.
  unfold col_min. intros Hm.
  assert (Hin : forall x xs, exists v, v ∈ x :: xs /\ v == foldr Qmin x xs).
  { intros x xs. induction xs as [|a xs (v & Hv & Ev)]; simpl.
    - exists x. split; [apply list_elem_of_here | reflexivity].
    - destruct (Q.min_spec_le a (foldr Qmin x xs)) as [[_ E] | [_ E]].
      + exists a. split; [apply list_elem_of_further, list_elem_of_here|].
        now rewrite E.
      + exists v. split.
        * apply elem_of_cons in Hv as [-> | Hv];
            [apply list_elem_of_here | now do 2 apply list_elem_of_further].
        * now rewrite E. }
  destruct (dropna l) as [|x xs] eqn:El; [discriminate|].
  injection Hm as <-. destruct (Hin x xs) as (v & Hv & Ev).
  exists v. split; [|exact Ev]. apply elem_of_dropna. now rewrite El.
Qed.

Lemma kota_options_elem (df : DataFrame) (k : string) :
  k ∈ kota_options df <-> exists r, r ∈ df /\ city r = Some k.
Proof.
  unfold kota_options.
  rewrite merge_sort_Permutation, elem_of_remove_dups, list_elem_of_omap.
  reflexivity.
Qed.

Lemma int_of_le (q : Q) : 0 <= q -> inject_Z (int_of q) <= q.
Proof.
  intros Hq. destruct q as [n d]. unfold int_of. simpl Qnum. simpl Qden.
  rewrite Z.quot_div_nonneg; [exact (Qfloor_le (n # d)) | | reflexivity].
  unfold Qle in Hq. simpl in Hq. lia.
Qed.

Lemma column_elem {A} (f : Listing -> A) (df : DataFrame) (r : Listing) :
  r ∈ df -> f r ∈ map f df.
Proof.
  intros Hr. change (map f df) with (f <$> df). now apply list_elem_of_fmap_2.
Qed.

Lemma filter_all {A} (P : A -> Prop) `{!forall x, Decision (P x)} (l : list A) :
  (forall x, x ∈ l -> P x) -> filter P l = l.
Proof.
  induction l as [|x l IH]; intros Hall; [reflexivity|].
  rewrite filter_cons_True by apply Hall, list_elem_of_here.
  f_equal. apply IH. intros y Hy. now apply Hall, list_elem_of_further.
Qed.

(** X5. The slider defaults exclude nothing but nulls: when no room count
    is negative, a row of the dataset passes the default criteria exactly
    when it has no null in the five columns that the filter tests; a
    dataset without such nulls is shown whole. *)
Theorem X5_defaults_keep_complete_rows (df : DataFrame) (c : Criteria) :
  default_criteria df = Some c ->
  (forall r b, r ∈ df -> bedrooms r = Some b -> 0 <= b) ->
  (forall r b, r ∈ df -> bathrooms r = Some b -> 0 <= b) ->
  (forall r, r ∈ df -> (r ∈ df_filtered c df <-> complete r)) /\
  ((forall r, r ∈ df -> complete r) -> df_filtered c df = df).
Proof.
  intros Hc Hbed Hbath. unfold default_criteria in Hc.
  destruct (col_min (map price df)) as [lo_p|] eqn:Elp; [|discriminate].
  destruct (col_max (map price df)) as [hi_p|] eqn:Ehp; [|discriminate].
  destruct (col_min (map area df)) as [lo_a|] eqn:Ela; [|discriminate].
  destruct (col_max (map area df)) as [hi_a|] eqn:Eha; [|discriminate].
  destruct (col_min (map bedrooms df)) as [bed|] eqn:Ebed; [|discriminate].
  destruct (col_min (map bathrooms df)) as [bath|] eqn:Ebath; [|discriminate].
  simpl in Hc. injection Hc as <-.
  assert (Hbed0 : 0 <= bed).
  { destruct (col_min_elem _ _ Ebed) as (v & Hv & Ev). rewrite <- Ev.
    change (map bedrooms df) with (bedrooms <$> df) in Hv.
    apply list_elem_of_fmap in Hv as (r & Er & Hr). eauto. }
  assert (Hbath0 : 0 <= bath).
  { destruct (col_min_elem _ _ Ebath) as (v & Hv & Ev). rewrite <- Ev.
    change (map bathrooms df) with (bathrooms <$> df) in Hv.
    apply list_elem_of_fmap in Hv as (r & Er & Hr). eauto. }
  assert (Hiff : forall r, r ∈ df ->
            (r ∈ df_filtered
                   {| filter_kota := kota_options df;
                      filter_price := (lo_p, hi_p);
                      filter_area := (lo_a, hi_a);
                      filter_bedrooms := int_of bed;
                      filter_bathrooms := int_of bath;
                      keyword := "" |} df <-> complete r)).
  { intros r Hr. rewrite df_filtered_elem, mask_spec. unfold satisfies, complete.
    cbn [filter_kota filter_price filter_area filter_bedrooms filter_bathrooms
         fst snd]. split.
    - intros (_ & (k & Ek & _) & (p & Ep & _) & (a & Ea & _) & (b & Eb & _)
              & (t & Et & _)).
      rewrite Ek, Ep, Ea, Eb, Et. repeat split; discriminate.
    - intros (Hk & Hp & Ha & Hb & Ht). split; [exact Hr|].
      destruct (city r) as [k|] eqn:Ek; [|contradiction].
      destruct (price r) as [p|] eqn:Ep; [|contradiction].
      destruct (area r) as [a|] eqn:Ea; [|contradiction].
      destruct (bedrooms r) as [b|] eqn:Eb; [|contradiction].
      destruct (bathrooms r) as [t|] eqn:Et; [|contradiction].
      repeat split.
      + exists k. split; [first [reflexivity | assumption]|]. apply kota_options_elem. eauto.
      + exists p. split; [first [reflexivity | assumption]|]. split.
        * apply (col_min_le _ _ _ Elp). rewrite <- Ep. now apply column_elem.
        * apply (col_max_ge _ _ _ Ehp). rewrite <- Ep. now apply column_elem.
      + exists a. split; [first [reflexivity | assumption]|]. split.
        * apply (col_min_le _ _ _ Ela). rewrite <- Ea. now apply column_elem.
        * apply (col_max_ge _ _ _ Eha). rewrite <- Ea. now apply column_elem.
      + exists b. split; [first [reflexivity | assumption]|].
        eapply Qle_trans; [apply int_of_le, Hbed0|].
        apply (col_min_le _ _ _ Ebed). rewrite <- Eb. now apply column_elem.
      + exists t. split; [first [reflexivity | assumption]|].
        eapply Qle_trans; [apply int_of_le, Hbath0|].
        apply (col_min_le _ _ _ Ebath). rewrite <- Et. now apply column_elem. }
  split; [exact Hiff|].
  intros Hall. unfold df_filtered. apply filter_all.
  intros r Hr. apply Is_true_true.
  destruct (Hiff r Hr) as [_ Hback].
  apply df_filtered_elem in Hback as [_ Hm]; [exact Hm | now apply Hall].
Qed.
End SidebarDefaults.

(** ** The keyword, trimmed and lowered *)

Section KeywordNormalisation.
Import Frame Spec Trim.

Ltac each_char c := destruct c as [[] [] [] [] [] [] [] []]; reflexivity.

Lemma is_space_lower (c : ascii) :
  Text.is_space (Text.lower_char c) = Text.is_space c.
Proof. each_char c. Qed.

Lemma lower_char_idem (c : ascii) :
  Text.lower_char (Text.lower_char c) = Text.lower_char c.
Proof. each_char c. Qed.

Lemma lower_idem (s : string) : Text.lower (Text.lower s) = Text.lower s.
Proof.
  induction s as [|c s IH]; [reflexivity|].
  simpl. now rewrite lower_char_idem, IH.
Qed.

Lemma lstrip_lower (s : string) :
  Text.lstrip (Text.lower s) = Text.lower (Text.lstrip s).
Proof.
  induction s as [|c s IH]; [reflexivity|].
  simpl. rewrite is_space_lower. destruct (Text.is_space c); [exact IH | reflexivity].
Qed.

Lemma rstrip_lower (s : string) :
  Text.rstrip (Text.lower s) = Text.lower (Text.rstrip s).
Proof.
  induction s as [|c s IH]; [reflexivity|].
  simpl. rewrite IH, is_space_lower.
  destruct (Text.rstrip s); simpl; [|reflexivity].
  now destruct (Text.is_space c).
Qed.

Lemma strip_lower (s : string) :
  Text.strip (Text.lower s) = Text.lower (Text.strip s).
Proof. unfold Text.strip. now rewrite lstrip_lower, rstrip_lower. Qed.

Lemma lstrip_no_leading_space (s : string) : no_leading_space (Text.lstrip s).
Proof.
  induction s as [|c s IH]; [exact I|].
  simpl. destruct (Text.is_space c) eqn:E; [exact IH | exact E].
Qed.

Lemma lstrip_fixed (s : string) : no_leading_space s -> Text.lstrip s = s.
Proof. destruct s as [|c s]; [reflexivity|]. simpl. now intros ->. Qed.

Lemma rstrip_no_leading_space (s : string) :
  no_leading_space s -> no_leading_space (Text.rstrip s).
Proof.
  destruct s as [|c s]; [exact id|]. simpl. intros Hc.
  destruct (Text.rstrip s); [rewrite Hc|]; exact Hc.
Qed.

Lemma rstrip_idem (s : string) : Text.rstrip (Text.rstrip s) = Text.rstrip s.
Proof.
  induction s as [|c s IH]; [reflexivity|].
  simpl. destruct (Text.rstrip s) as [|d t] eqn:E.
  - destruct (Text.is_space c) eqn:Ec; [reflexivity|]. simpl. now rewrite Ec.
  - change (Text.rstrip (String c (String d t)))
      with (match Text.rstrip (String d t) with
            | EmptyString =>
                if Text.is_space c then EmptyString else String c EmptyString
            | u => String c u
            end).
    now rewrite IH.
Qed.

Lemma strip_idem (s : string) : Text.strip (Text.strip s) = Text.strip s.
Proof.
  unfold Text.strip.
  rewrite (lstrip_fixed (Text.rstrip (Text.lstrip s)))
    by apply rstrip_no_leading_space, lstrip_no_leading_space.
  apply rstrip_idem.
Qed.

Lemma truthy_lower (s : string) : Text.truthy (Text.lower s) = Text.truthy s.
Proof. now destruct s. Qed.

Lemma keyword_normal_form (kw : string) :
  Text.lower (Text.strip (Text.lower (Text.strip kw))) = Text.lower (Text.strip kw).
Proof. now rewrite strip_lower, strip_idem, lower_idem. Qed.

(** X8. The keyword counts only up to surrounding white space and the case
    of its letters: two keywords with the same trimmed, lowered form select
    the same rows, and the trimmed, lowered form is one of them. *)
Theorem X8_keyword_up_to_case_and_space (kw kw' : string) (df : DataFrame) :
  Text.lower (Text.strip kw) = Text.lower (Text.strip kw') ->
  df_keyword kw df = df_keyword kw' df /\
  df_keyword (Text.lower (Text.strip kw)) df = df_keyword kw df.
Proof.
  assert (Hsame : forall a b, Text.lower (Text.strip a) = Text.lower (Text.strip b) ->
                    df_keyword a df = df_keyword b df).
  { intros a b Hab. unfold df_keyword.
    rewrite <- (truthy_lower (Text.strip a)), <- (truthy_lower (Text.strip b)).
    now rewrite Hab. }
  intros Heq. split; [now apply Hsame|].
  apply Hsame, keyword_normal_form.
Qed.

Lemma matches_here_prefix (pat s : string) (p : Text.pattern) :
  Text.re_compile pat = Some p ->
  String.prefix pat s = true -> Text.matches_here p s = true.
Proof.
  revert s p. induction pat as [|a pat IH]; intros s p Hc Hp.
  - injection Hc as <-. reflexivity.
  - simpl in Hc. destruct s as [|b s]; [discriminate Hp|].
    simpl in Hp. destruct (ascii_dec a b) as [<- | _]; [|discriminate Hp].
    destruct (Ascii.eqb_spec a ".") as [-> | Hdot].
    + destruct (Text.re_compile pat) as [q|]; [|discriminate Hc].
      injection Hc as <-. simpl. now apply IH.
    + destruct (Text.is_special a); [discriminate Hc|].
      destruct (Text.re_compile pat) as [q|]; [|discriminate Hc].
      injection Hc as <-. simpl. rewrite Ascii.eqb_refl. now apply IH.
Qed.

Lemma re_search_occurs (pat s : string) (p : Text.pattern) :
  Text.re_compile pat = Some p ->
  Text.occurs pat s = true -> Text.re_search p s = true.
Proof.
  intros Hc. induction s as [|b s IH].
  - intros Ho. cbn [Text.occurs] in Ho. rewrite orb_false_r in Ho.
    cbn [Text.re_search]. rewrite orb_false_r.
    exact (matches_here_prefix pat EmptyString p Hc Ho).
  - change (Text.occurs pat (String b s))
      with (String.prefix pat (String b s) || Text.occurs pat s).
    change (Text.re_search p (String b s))
      with (Text.matches_here p (String b s) || Text.re_search p s).
    intros Ho. apply orb_true_iff in Ho as [Ho | Ho]; apply orb_true_iff.
    + left. exact (matches_here_prefix pat _ p Hc Ho).
    + right. now apply IH.
Qed.

(** X9. Reading the keyword as a regular expression never loses a row: a
    row whose title or location contains the keyword as a substring (case
    aside) is in the result of the keyword search. *)
Theorem X9_keyword_keeps_substring_rows (kw : string) (df view : DataFrame)
    (r : Listing) :
  df_keyword kw df = Some view ->
  r ∈ df -> keyword_occurs kw r = true -> r ∈ view.
Proof.
  unfold df_keyword. destruct (Text.truthy _).
  - destruct (Text.re_compile _) as [p|] eqn:Hc; [|discriminate].
    intros [= <-] Hr Ho. apply list_elem_of_filter. split; [|exact Hr].
    apply Is_true_true.
    unfold keyword_occurs, occurs_in in Ho. unfold keyword_mask, str_contains, str_lower.
    apply orb_true_iff in Ho. apply orb_true_iff.
    destruct Ho as [Ho | Ho]; [left | right].
    + destruct (title r); [|discriminate]. simpl. exact (re_search_occurs _ _ _ Hc Ho).
    + destruct (location r); [|discriminate]. simpl. exact (re_search_occurs _ _ _ Hc Ho).
  - now intros [= <-].
Qed.

End KeywordNormalisation.

(** ** The KPIs *)

Section KPIs.
Import Frame Spec Agg Sidebar.

Lemma inject_succ (n : nat) :
  inject_Z (Z.of_nat (S n)) == 1 + inject_Z (Z.of_nat n).
Proof.
  rewrite Nat2Z.inj_succ, <- Z.add_1_l, inject_Z_plus. reflexivity.
Qed.

Lemma Qsum_bounds (xs : list Q) (lo hi : Q) :
  (forall x, x ∈ xs -> lo <= x /\ x <= hi) ->
  lo * inject_Z (Z.of_nat (length xs)) <= Qsum xs /\
  Qsum xs <= hi * inject_Z (Z.of_nat (length xs)).
Proof.
  induction xs as [|x xs IH]; intros Hall.
  - simpl. split; ring_simplify; apply Qle_refl.
  - destruct (Hall x (list_elem_of_here _ _)) as [H1 H2].
    destruct IH as [I1 I2];
      [intros y Hy; now apply Hall, list_elem_of_further|].
    change (Qsum (x :: xs)) with (x + Qsum xs).
    change (length (x :: xs)) with (S (length xs)).
    rewrite inject_succ. split; nra.
Qed.

Lemma dropna_in_range (l : list (option Q)) (lo hi : Q) :
  (forall x, x ∈ l -> in_range x lo hi) ->
  length (dropna l) = length l /\
  (forall v, v ∈ dropna l -> lo <= v /\ v <= hi).
Proof.
  intros Hall. split.
  - unfold dropna. induction l as [|x l IH]; [reflexivity|].
    destruct (Hall x (list_elem_of_here _ _)) as (v & -> & _).
    simpl. f_equal. apply IH. intros y Hy. now apply Hall, list_elem_of_further.
  - intros v Hv. unfold dropna in Hv. apply list_elem_of_omap in Hv as (x & Hx & Ex).
    simpl in Ex. subst x. destruct (Hall _ Hx) as (v' & [= <-] & Hb). exact Hb.
Qed.

(** The mean of a column whose cells all lie in a range. *)
Lemma mean_in_range (l : list (option Q)) (lo hi : Q) :
  l <> [] ->
  (forall x, x ∈ l -> in_range x lo hi) ->
  exists m, mean l = Some m /\ lo <= m /\ m <= hi.
Proof.
  intros Hne Hall. destruct (dropna_in_range l lo hi Hall) as [Hlen Hin].
  unfold mean. destruct (dropna l) as [|x xs] eqn:E.
  - destruct l; [contradiction | discriminate Hlen].
  - eexists. split; [reflexivity|].
    destruct (Qsum_bounds (x :: xs) lo hi Hin) as [H1 H2].
    assert (Hpos : 0 < inject_Z (Z.of_nat (length (x :: xs)))).
    { change 0 with (inject_Z 0). rewrite <- Zlt_Qlt. simpl. lia. }
    split; [now apply Qle_shift_div_l | now apply Qle_shift_div_r].
Qed.

(** The median of a column whose cells all lie in a range. *)
Lemma median_in_range (l : list (option Q)) (lo hi : Q) :
  l <> [] ->
  (forall x, x ∈ l -> in_range x lo hi) ->
  exists m, median l = Some m /\ lo <= m /\ m <= hi.
Proof.
  intros Hne Hall. destruct (dropna_in_range l lo hi Hall) as [Hlen Hin].
  unfold median. set (xs := merge_sort Qle (dropna l)).
  assert (Hperm : xs ≡ₚ dropna l) by apply merge_sort_Permutation.
  assert (Hn : (0 < length xs)%nat).
  { rewrite Hperm, Hlen. destruct l; [contradiction | simpl; lia]. }
  assert (Hget : forall i, (i < length xs)%nat ->
            exists v, xs !! i = Some v /\ lo <= v /\ v <= hi).
  { intros i Hi. destruct (lookup_lt_is_Some_2 xs i Hi) as [v Hv].
    exists v. split; [exact Hv|]. apply Hin. rewrite <- Hperm.
    eapply list_elem_of_lookup_2. exact Hv. }
  destruct (Nat.eqb_spec (length xs) 0) as [E0 | _]; [lia|].
  destruct (Nat.odd (length xs)) eqn:Eodd.
  - destruct (Hget (length xs / 2)%nat) as (v & Hv & Hb).
    { apply Nat.div_lt; lia. }
    exists v. auto.
  - assert (H2 : (2 <= length xs)%nat).
    { destruct (length xs) as [|[|n]]; [lia | discriminate Eodd | lia]. }
    assert (Hhalf : (length xs / 2 < length xs)%nat) by (apply Nat.div_lt; lia).
    destruct (Hget (length xs / 2 - 1)%nat) as (a & Ha & Ha1 & Ha2); [lia|].
    destruct (Hget (length xs / 2)%nat) as (b & Hb & Hb1 & Hb2); [exact Hhalf|].
    rewrite Ha, Hb. eexists. split; [reflexivity|].
    split; [apply Qle_shift_div_l | apply Qle_shift_div_r]; lra.
Qed.

Lemma view_rows (c : Criteria) (df view : DataFrame) (r : Listing) :
  filtered_view c df = Some view -> r ∈ view -> r ∈ df /\ satisfies c r.
Proof.
  intros Hv Hr. pose proof (filtered_view_elem _ _ _ _ Hv Hr) as Hin.
  unfold filtered_view in Hv. apply (df_keyword_elem _ _ _ _ Hv) in Hr.
  apply df_filtered_elem in Hr as [_ Hm]. split; [exact Hin | now apply mask_spec].
Qed.

Lemma column_in_range (c : Criteria) (df view : DataFrame)
    (col : Listing -> option Q) (lo hi : Q) :
  filtered_view c df = Some view ->
  (forall r, satisfies c r -> in_range (col r) lo hi) ->
  forall x, x ∈ map col view -> in_range x lo hi.
Proof.
  intros Hv Hcol x Hx. change (map col view) with (col <$> view) in Hx.
  apply list_elem_of_fmap in Hx as (r & -> & Hr).
  apply Hcol. exact (proj2 (view_rows _ _ _ _ Hv Hr)).
Qed.

(** X10, in exact arithmetic. On a view that is not empty the average
    price, the median price and the average area are numbers, not NaN, and
    lie within the ranges chosen in the sidebar. (A sum of floats is rounded
    at every step, so the average the script shows can differ from the
    exact one in its last digits.) *)
Theorem X10_kpis_within_ranges (c : Criteria) (df view : DataFrame) :
  filtered_view c df = Some view ->
  view <> [] ->
  exists avg_p med_p avg_a,
    mean (map price view) = Some avg_p /\
    median (map price view) = Some med_p /\
    mean (map area view) = Some avg_a /\
    fst (filter_price c) <= avg_p /\ avg_p <= snd (filter_price c) /\
    fst (filter_price c) <= med_p /\ med_p <= snd (filter_price c) /\
    fst (filter_area c) <= avg_a /\ avg_a <= snd (filter_area c).
Proof.
  intros Hv Hne.
  assert (Hp : forall x, x ∈ map price view ->
            in_range x (fst (filter_price c)) (snd (filter_price c))).
  { apply (column_in_range c df view price _ _ Hv). now intros r (_ & H & _). }
  assert (Ha : forall x, x ∈ map area view ->
            in_range x (fst (filter_area c)) (snd (filter_area c))).
  { apply (column_in_range c df view area _ _ Hv). now intros r (_ & _ & H & _). }
  assert (Hnp : map price view <> []) by (destruct view; [contradiction | discriminate]).
  assert (Hna : map area view <> []) by (destruct view; [contradiction | discriminate]).
  destruct (mean_in_range _ _ _ Hnp Hp) as (ap & E1 & B1 & B2).
  destruct (median_in_range _ _ _ Hnp Hp) as (mp & E2 & B3 & B4).
  destruct (mean_in_range _ _ _ Hna Ha) as (aa & E3 & B5 & B6).
  exists ap, mp, aa. repeat split; assumption.
Qed.

Lemma Qsum_Permutation (xs ys : list Q) : xs ≡ₚ ys -> Qsum xs == Qsum ys.
Proof.
  induction 1 as [|x xs ys _ IH|x y xs|xs ys zs _ IH1 _ IH2]; simpl.
  - reflexivity.
  - now rewrite IH.
  - ring.
  - now rewrite IH1.
Qed.

Lemma mean_Permutation (l l' : list (option Q)) :
  l ≡ₚ l' -> same_value (mean l) (mean l').
Proof.
  intros Hp. assert (Hd : dropna l ≡ₚ dropna l') by (unfold dropna; now rewrite Hp).
  unfold mean. pose proof (Permutation_length Hd) as Hlen.
  pose proof (Qsum_Permutation _ _ Hd) as Hsum.
  destruct (dropna l) as [|x xs], (dropna l') as [|y ys];
    try discriminate Hlen; simpl; [exact I|].
  simpl in Hlen. rewrite Hsum.
  change (length (x :: xs)) with (S (length xs)).
  change (length (y :: ys)) with (S (length ys)).
  injection Hlen as ->. reflexivity.
Qed.

(** X11, in exact arithmetic. The count and the averages do not depend on
    the order of the rows: two views with the same rows in a different
    order give the same number of listings and the same exact average of
    every column. (A sum of floats is rounded in the order of the rows, so
    the averages the script shows agree up to rounding only.) *)
Theorem X11_kpis_order_free (view view' : DataFrame) (col : Listing -> option Q) :
  view ≡ₚ view' ->
  length view = length view' /\
  same_value (mean (map col view)) (mean (map col view')).
Proof.
  intros Hp. split; [now apply Permutation_length|].
  apply mean_Permutation. change (col <$> view ≡ₚ col <$> view'). now rewrite Hp.
Qed.

End KPIs.

(** ** The tables per city *)

Section Tables.
Import Frame Spec Agg Sidebar.
Variable sort_values : forall A : Type, (A -> option Q) -> list A -> list A.
Hypothesis sorted : sort_contract sort_values.

Lemma kota_options_NoDup (df : DataFrame) : NoDup (kota_options df).
Proof.
  unfold kota_options. rewrite merge_sort_Permutation. apply NoDup_remove_dups.
Qed.

Lemma groupby_city_keys (agg : list (option Q) -> option Q)
    (col : Listing -> option Q) (df : DataFrame) :
  fst <$> groupby_city agg col df = kota_options df.
Proof.
  unfold groupby_city. change (map ?f ?l) with (f <$> l).
  rewrite <- list_fmap_compose. apply list_fmap_id.
Qed.

Lemma groupby_city_entry (agg : list (option Q) -> option Q)
    (col : Listing -> option Q) (df : DataFrame) (k : string) (m : option Q) :
  (k, m) ∈ groupby_city agg col df ->
  k ∈ kota_options df /\ m = agg (map col (group k df)).
Proof.
  unfold groupby_city. change (map ?f (kota_options df)) with (f <$> kota_options df).
  intros H. apply list_elem_of_fmap in H as (k' & [= -> ->] & Hk). auto.
Qed.

(** X13. The table of median prices has one line for every city that
    occurs in the view and no other line, none twice, and each line holds
    the median price of the rows of that city; the second table holds their
    average areas in the same way. *)
Theorem X13_city_tables (view : DataFrame) :
  fst <$> city_price sort_values view ≡ₚ kota_options view /\
  NoDup (fst <$> city_price sort_values view) /\
  (forall k, k ∈ fst <$> city_price sort_values view <->
             exists r, r ∈ view /\ city r = Some k) /\
  (forall k m, (k, m) ∈ city_price sort_values view ->
               m = median (map price (group k view))) /\
  (forall k m, (k, m) ∈ city_area sort_values view ->
               m = mean (map area (group k view))).
Proof.
  unfold city_price, city_area.
  destruct (sorted _ snd (groupby_city median price view)) as [Hp _].
  destruct (sorted _ snd (groupby_city mean area view)) as [Ha _].
  assert (Hkeys : fst <$> sort_values (string * option Q)%type snd
                            (groupby_city median price view)
                  ≡ₚ kota_options view).
  { rewrite Hp. now rewrite groupby_city_keys. }
  split; [exact Hkeys|]. split; [rewrite Hkeys; apply kota_options_NoDup|].
  split; [intros k; rewrite Hkeys; apply kota_options_elem|]. split.
  - intros k m H. rewrite Hp in H. now apply groupby_city_entry in H.
  - intros k m H. rewrite Ha in H. now apply groupby_city_entry in H.
Qed.




End Tables.

(** ** The top listings and the listing picked for the simulation *)

Section TopMore.
Import Frame Spec Agg Sidebar.
Variable sort_values : forall A : Type, (A -> option Q) -> list A -> list A.

(** X15. Moving the slider of the top listings up only appends rows: the
    table for a smaller number is the head of the table for a larger one. *)
Theorem X15_top_listings_prefix (k n : nat) (view : DataFrame) :
  (k <= n)%nat ->
  top_listings sort_values k view = take k (top_listings sort_values n view).
Proof.
  intros Hkn. unfold top_listings. change (map columns9 ?l) with (columns9 <$> l).
  rewrite <- fmap_take, take_take. now rewrite Nat.min_l.
Qed.

Hypothesis sorted : sort_contract sort_values.

(** X16. When the slider is at least the number of rows the table shows
    every row of the view once; and whatever the slider, the first row
    shown has the highest price of the view. *)
Theorem X16_top_listings_all_and_first (top_n : nat) (view : DataFrame) :
  ((length view <= top_n)%nat ->
   top_listings sort_values top_n view ≡ₚ columns9 <$> view) /\
  (forall t r, head (top_listings sort_values top_n view) = Some t ->
               r ∈ view -> desc (t_price t) (price r)).
Proof.
  destruct (sorted Listing price view) as [Hperm Hsorted].
  unfold top_listings. change (map columns9 ?l) with (columns9 <$> l). split.
  - intros Hlen. rewrite take_ge by (rewrite Hperm; exact Hlen). now rewrite Hperm.
  - intros t r Ht Hr. rewrite <- Hperm in Hr.
    destruct (sort_values Listing price view) as [|x xs]; [now destruct top_n|].
    destruct top_n as [|n]; [discriminate Ht|].
    injection Ht as <-. cbn [columns9 t_price].
    apply StronglySorted_inv in Hsorted as [_ Hall].
    apply elem_of_cons in Hr as [-> | Hr].
    + destruct (price x); simpl; [apply Qle_refl | exact I].
    + rewrite Forall_forall in Hall. exact (Hall _ Hr).
Qed.

End TopMore.

Section ListingChoice.
Import Frame Spec Agg Sidebar Tab4 KPR.

(** X17. The selector of the simulation renumbers the rows of the view
    from 0 and changes nothing else, and every position below the number of
    rows yields a price: a number within the price range of the filter,
    never NaN and never an [IndexError]. *)
Theorem X17_selected_price (c : Criteria) (df view : DataFrame) (idx : nat) :
  filtered_view c df = Some view ->
  (idx < length view)%nat ->
  index <$> reset_index view = seq 0 (length view) /\
  price <$> reset_index view = price <$> view /\
  exists p,
    harga_juta view idx = Some (Some p) /\
    fst (filter_price c) <= p /\ p <= snd (filter_price c).
Proof.
  intros Hv Hidx. unfold reset_index. split; [|split].
  - rewrite fmap_imap.
    change (imap (fun n => index ∘ relabel n) view)
      with (imap (fun (n : nat) (_ : Listing) => n) view).
    rewrite (imap_seq_0 view (fun n => n)). apply list_fmap_id.
  - rewrite fmap_imap.
    change (imap (fun n => price ∘ relabel n) view) with (imap (const price) view).
    apply imap_const.
  - destruct (lookup_lt_is_Some_2 view idx Hidx) as [r Hr].
    assert (Hin : r ∈ view) by (eapply list_elem_of_lookup_2; exact Hr).
    unfold filtered_view in Hv. apply (df_keyword_elem _ _ _ _ Hv) in Hin.
    apply df_filtered_elem in Hin as [_ Hm]. apply mask_spec in Hm.
    destruct Hm as (_ & (p & Ep & Hp) & _).
    exists p. split; [|exact Hp].
    unfold harga_juta, selected_row, reset_index.
    unfold DataFrame. rewrite list_lookup_imap, Hr. simpl. now rewrite Ep.
Qed.

End ListingChoice.

(** ** More on the arithmetic of the simulation *)

Section KPR_more.
Import KPR Anuitas Faktor.

(** A tenor of zero with a rate that is not positive: the divisor is
    [n_bulan = 0]. *)
Lemma hitung_kpr_tenor_zero_flat (harga_juta bunga : Q) (dp : Z) :
  bunga / 12 / 100 <= 0 ->
  hitung_kpr harga_juta dp bunga 0 = raise ZeroDivisionError.
Proof.
  intros Hi. unfold hitung_kpr. cbn -[Qpower Qeq_bool Qle_bool].
  change (Qeq_bool (inject_Z 100) 0) with false.
  change (Qeq_bool (inject_Z 12) 0) with false.
  cbn -[Qpower Qeq_bool Qle_bool].
  change (inject_Z 0) with 0.
  change (inject_Z 12) with 12. change (inject_Z 100) with 100.
  rewrite (rate_test_zero _ Hi). reflexivity.
Qed.

(** What every run that returns has computed. *)
Lemma hitung_kpr_returns (harga_juta bunga : Q) (dp tenor : Z) (r : Simulasi Q) :
  hitung_kpr harga_juta dp bunga tenor = ret r ->
  tenor <> 0%Z /\
  harga_rumah_rp r = harga_juta * 1000000 /\
  dp_rp r = harga_juta * 1000000 * inject_Z dp / 100 /\
  pokok_pinjaman r = harga_rumah_rp r - dp_rp r /\
  i_bulanan r = bunga / 12 / 100 /\
  n_bulan r = (tenor * 12)%Z /\
  cicilan_bulanan r =
    (if Qle_bool (i_bulanan r) 0
     then pokok_pinjaman r / inject_Z (n_bulan r)
     else pokok_pinjaman r * i_bulanan r /
          (1 - (1 + i_bulanan r) ^ (- n_bulan r))) /\
  total_bayar r = cicilan_bulanan r * inject_Z (n_bulan r) /\
  total_bunga r = total_bayar r - pokok_pinjaman r.
Proof.
  intros Hr.
  destruct (Z.eq_dec tenor 0%Z) as [-> | Ht].
  - exfalso. destruct (Qlt_le_dec 0 (bunga / 12 / 100)) as [Hi | Hi].
    + rewrite hitung_kpr_tenor_zero in Hr by exact Hi. discriminate.
    + rewrite hitung_kpr_tenor_zero_flat in Hr by exact Hi. discriminate.
  - split; [exact Ht|].
    destruct (Qlt_le_dec 0 (bunga / 12 / 100)) as [Hi | Hi].
    + rewrite hitung_kpr_rate_pos in Hr by assumption.
      injection Hr as <-. cbn -[Qpower Z.mul Qle_bool].
      assert (E : Qle_bool (bunga / 12 / 100) 0 = false).
      { pose proof (rate_test _ Hi) as E. now apply negb_true_iff in E. }
      rewrite E. repeat split.
    + rewrite hitung_kpr_rate_nonpos in Hr by assumption.
      injection Hr as <-. cbn -[Qpower Z.mul Qle_bool].
      apply Qle_bool_iff in Hi. rewrite Hi. repeat split.
Qed.

(** X18. The error message appears exactly when the price is not
    positive; for a positive price no run shows it, whatever the other
    inputs. *)
Theorem X18_error_iff_price_not_positive (harga_juta bunga : Q) (dp tenor : Z) :
  (exists msg, st_error msg ∈ fst (tombol_hitung (Some harga_juta) dp bunga tenor))
  <-> harga_juta <= 0.
Proof.
  unfold tombol_hitung. cbn -[hitung_kpr tampilkan].
  change (inject_Z 0) with 0.
  destruct (Qle_bool harga_juta 0) eqn:Hg.
  - apply Qle_bool_iff in Hg. split; [intros _; exact Hg|].
    intros _. eexists. apply list_elem_of_here.
  - split.
    + intros (msg & Hin). exfalso.
      destruct (hitung_kpr harga_juta dp bunga tenor) as [e | r].
      * now apply not_elem_of_nil in Hin.
      * unfold tampilkan in Hin.
        destruct (fdiv (total_bunga r) (pokok_pinjaman r)); cbn in Hin;
          repeat (apply elem_of_cons in Hin as [Hin | Hin]; [discriminate Hin|]);
          now apply not_elem_of_nil in Hin.
    + intros Hle. apply Qle_bool_iff in Hle. congruence.
Qed.

Lemma deret_le_len (n : nat) (y : Q) :
  0 <= y -> y <= 1 -> deret n y <= inject_Z (Z.of_nat n).
Proof.
  intros H0 H1. induction n as [|k IH]; [apply Qle_refl|].
  rewrite Nat2Z.inj_succ, <- Z.add_1_l, inject_Z_plus.
  change (deret (S k) y) with (y * (1 + deret k y)).
  change (inject_Z 1) with 1.
  pose proof (deret_nonneg k y H0). nra.
Qed.

Lemma deret_lt_count (n : nat) (y : Q) :
  0 < y -> y < 1 -> (0 < n)%nat -> deret n y < inject_Z (Z.of_nat n).
Proof.
  intros H0 H1 Hn. destruct n as [|k]; [lia|].
  rewrite Nat2Z.inj_succ, <- Z.add_1_l, inject_Z_plus.
  change (deret (S k) y) with (y * (1 + deret k y)).
  change (inject_Z 1) with 1.
  pose proof (deret_nonneg k y ltac:(lra)).
  pose proof (deret_le_len k y ltac:(lra) ltac:(lra)). nra.
Qed.

Lemma discount_between (i : Q) : 0 < i -> 0 < / (1 + i) /\ / (1 + i) < 1.
Proof.
  intros Hi. split; [apply Qinv_lt_0_compat; lra|].
  apply Qlt_shift_inv_r; lra.
Qed.

(** X20. A loan with a positive rate costs interest: with a positive
    principal and tenor the monthly payment is more than the first month's
    interest and more than the interest-free instalment, and the total paid
    is more than the principal. *)
Theorem X20_interest_positive (harga_juta bunga : Q) (dp tenor : Z) :
  0 < harga_juta * 1000000 - harga_juta * 1000000 * inject_Z dp / 100 ->
  0 < bunga / 12 / 100 ->
  (0 < tenor)%Z ->
  exists r,
    hitung_kpr harga_juta dp bunga tenor = ret r /\
    pokok_pinjaman r * i_bulanan r < cicilan_bulanan r /\
    pokok_pinjaman r / inject_Z (n_bulan r) < cicilan_bulanan r /\
    pokok_pinjaman r < total_bayar r /\
    0 < total_bunga r.
Proof.
  intros HP Hi Ht.
  destruct (cicilan_as_deret harga_juta bunga dp tenor Hi Ht) as (r & Hr & Ec).
  exists r. split; [exact Hr|].
  destruct (hitung_kpr_returns _ _ _ _ _ Hr)
    as (_ & Eh & Ed & Ep & Ei & En & Em & Etb & Ebg).
  rewrite Eh, Ed in Ep.
  set (P := harga_juta * 1000000 - harga_juta * 1000000 * inject_Z dp / 100) in *.
  set (i := bunga / 12 / 100) in *.
  set (n := Z.to_nat (tenor * 12)) in *.
  destruct (discount_between i Hi) as [Hy0 Hy1].
  assert (Hn : (0 < n)%nat) by (subst n; lia).
  pose proof (deret_pos n _ Hy0 Hn) as HG.
  pose proof (deret_lt_count n _ Hy0 Hy1 Hn) as HGn.
  assert (En' : inject_Z (n_bulan r) = inject_Z (Z.of_nat n))
    by (rewrite En; subst n; f_equal; lia).
  assert (Hnpos : 0 < inject_Z (Z.of_nat n)) by lra.
  assert (Hpay : P < cicilan_bulanan r * inject_Z (Z.of_nat n)).
  { rewrite Ec. unfold Qdiv. 
    assert (Hinv : / inject_Z (Z.of_nat n) < / deret n (/ (1 + i)))
      by (apply -> Qinv_lt_contravar; assumption).
    assert (E1 : P * (/ inject_Z (Z.of_nat n) * inject_Z (Z.of_nat n)) == P)
      by (field; lra).
    assert (H : 0 < P * inject_Z (Z.of_nat n) *
                    (/ deret n (/ (1 + i)) - / inject_Z (Z.of_nat n)))
      by (repeat apply Qmult_lt_0_compat; lra).
    lra. }
  rewrite Etb, Ebg, Etb, Ep, Ei, En'.
  split; [|split; [|split]].
  - rewrite Em, Ep, Ei.
    assert (E : Qle_bool i 0 = false).
    { pose proof (rate_test _ Hi) as E. now apply negb_true_iff in E. }
    rewrite E, En.
    pose proof (faktor_lt_1 i (tenor * 12) Hi ltac:(lia)) as Hf1.
    assert (Hf0 : 0 < (1 + i) ^ (- (tenor * 12))) by (apply Qpower_0_lt; lra).
    assert (Hpif : 0 < P * i * (1 + i) ^ (- (tenor * 12)))
      by (apply Qmult_lt_0_compat; [apply Qmult_lt_0_compat|]; assumption).
    apply Qlt_shift_div_l; lra.
  - apply Qlt_shift_div_r; [exact Hnpos | exact Hpay].
  - exact Hpay.
  - lra.
Qed.

(** X21. A rate that is not positive is computed as no interest at all:
    the run takes the branch [principal / n_months]. On Python's floats a
    rate that is not above zero gives the principal, the payment, the total
    and the interest of rate 0, or the exception of rate 0; in exact
    arithmetic the payment is [principal / n_months] and the interest is
    zero. *)
Theorem X21_negative_rate_is_rate_zero (harga_juta bunga : Q)
    (harga_juta64 bunga64 : spec_float) (dp tenor : Z) :
  (SFleb bunga64 (B64.of_Z 0) = true ->
   match hitung_kpr harga_juta64 dp bunga64 tenor,
         hitung_kpr harga_juta64 dp (B64.of_Z 0) tenor with
   | inr r, inr r0 =>
       pokok_pinjaman r = pokok_pinjaman r0 /\
       cicilan_bulanan r = cicilan_bulanan r0 /\
       total_bayar r = total_bayar r0 /\
       total_bunga r = total_bunga r0
   | inl e, inl e0 => e = e0
   | _, _ => False
   end) /\
  (bunga <= 0 ->
   tenor <> 0%Z ->
   exists r r0,
     hitung_kpr harga_juta dp bunga tenor = ret r /\
     hitung_kpr harga_juta dp 0 tenor = ret r0 /\
     cicilan_bulanan r = cicilan_bulanan r0 /\
     cicilan_bulanan r = pokok_pinjaman r / inject_Z (n_bulan r) /\
     total_bayar r = total_bayar r0 /\
     total_bunga r == 0).
Proof.
  split; [apply hitung_kpr_binary64_rate_not_positive|].
  intros Hb Ht.
  assert (Hi : bunga / 12 / 100 <= 0).
  { apply Qle_shift_div_r; [reflexivity|].
    apply Qle_shift_div_r; [reflexivity|]. lra. }
  assert (Hi0 : 0 / 12 / 100 <= 0) by discriminate.
  eexists. eexists.
  split; [apply hitung_kpr_rate_nonpos; assumption|].
  split; [apply hitung_kpr_rate_nonpos; assumption|].
  cbn -[Z.mul]. repeat split. field.
  apply inject_Z_nonzero. lia.
Qed.


Lemma cicilan_factor (harga_juta bunga : Q) (dp tenor : Z) (r : Simulasi Q) :
  hitung_kpr harga_juta dp bunga tenor = ret r ->
  cicilan_bulanan r == pokok_pinjaman r * faktor_cicilan bunga tenor /\
  ((0 < tenor)%Z -> 0 < faktor_cicilan bunga tenor).
Proof.
  intros Hr.
  destruct (hitung_kpr_returns _ _ _ _ _ Hr)
    as (Ht & _ & _ & _ & Ei & En & Em & _ & _).
  unfold faktor_cicilan. rewrite Em, Ei, En.
  destruct (Qle_bool (bunga / 12 / 100) 0) eqn:E.
  - split; [reflexivity|]. intros Hpos. apply Qinv_lt_0_compat.
    change 0 with (inject_Z 0). rewrite <- Zlt_Qlt. lia.
  - assert (Hi : 0 < bunga / 12 / 100).
    { destruct (Qlt_le_dec 0 (bunga / 12 / 100)) as [H | H]; [exact H|].
      apply Qle_bool_iff in H. congruence. }
    pose proof (penyebut_nonzero _ (tenor * 12) Hi ltac:(lia)) as Hd.
    split; [field; exact Hd|].
    intros Hpos. pose proof (faktor_lt_1 _ (tenor * 12) Hi ltac:(lia)).
    apply Qlt_shift_div_l; lra.
Qed.

Lemma hitung_kpr_total (harga_juta bunga : Q) (dp tenor : Z) :
  tenor <> 0%Z -> exists r, hitung_kpr harga_juta dp bunga tenor = ret r.
Proof.
  intros Ht. destruct (Qlt_le_dec 0 (bunga / 12 / 100)) as [Hi | Hi]; eexists.
  - now apply hitung_kpr_rate_pos.
  - now apply hitung_kpr_rate_nonpos.
Qed.

(** X23. The figures scale with the price: for the same down payment,
    rate and tenor, a price [k] times as high gives a principal, a monthly
    payment, a total and an interest [k] times as high, so the ratio of
    interest to principal does not depend on the price. *)
Theorem X23_figures_scale_with_price (k harga_juta bunga : Q) (dp tenor : Z)
    (r : Simulasi Q) :
  hitung_kpr harga_juta dp bunga tenor = ret r ->
  exists r',
    hitung_kpr (k * harga_juta) dp bunga tenor = ret r' /\
    pokok_pinjaman r' == k * pokok_pinjaman r /\
    cicilan_bulanan r' == k * cicilan_bulanan r /\
    total_bayar r' == k * total_bayar r /\
    total_bunga r' == k * total_bunga r /\
    total_bunga r' * pokok_pinjaman r == total_bunga r * pokok_pinjaman r'.
Proof.
  intros Hr.
  destruct (hitung_kpr_returns _ _ _ _ _ Hr)
    as (Ht & Eh & Ed & Ep & _ & En & _ & Etb & Ebg).
  destruct (hitung_kpr_total (k * harga_juta) bunga dp tenor Ht) as (r' & Hr').
  destruct (hitung_kpr_returns _ _ _ _ _ Hr')
    as (_ & Eh' & Ed' & Ep' & _ & En' & _ & Etb' & Ebg').
  destruct (cicilan_factor _ _ _ _ _ Hr) as [Ec _].
  destruct (cicilan_factor _ _ _ _ _ Hr') as [Ec' _].
  exists r'. split; [exact Hr'|].
  assert (HP : pokok_pinjaman r' == k * pokok_pinjaman r).
  { rewrite Ep', Ed', Eh', Ep, Ed, Eh. field. }
  assert (HC : cicilan_bulanan r' == k * cicilan_bulanan r).
  { rewrite Ec', Ec, HP. ring. }
  assert (HT : total_bayar r' == k * total_bayar r).
  { rewrite Etb', Etb, HC, En', En. ring. }
  assert (HB : total_bunga r' == k * total_bunga r).
  { rewrite Ebg', Ebg, HT, HP. ring. }
  repeat (split; [assumption|]). rewrite HB, HP. ring.
Qed.

Lemma Zlt_inject (a b : Z) : (a < b)%Z -> inject_Z a < inject_Z b.
Proof. intros H. now rewrite <- Zlt_Qlt. Qed.

(** X24. A higher down payment lowers both the principal and the monthly
    payment, for every rate and every positive tenor. *)
Theorem X24_down_payment_monotone (harga_juta bunga : Q) (dp dp' tenor : Z) :
  0 < harga_juta ->
  (dp < dp')%Z ->
  (0 < tenor)%Z ->
  exists r r',
    hitung_kpr harga_juta dp bunga tenor = ret r /\
    hitung_kpr harga_juta dp' bunga tenor = ret r' /\
    pokok_pinjaman r' < pokok_pinjaman r /\
    cicilan_bulanan r' < cicilan_bulanan r.
Proof.
  intros Hh Hdp Ht.
  destruct (hitung_kpr_total harga_juta bunga dp tenor ltac:(lia)) as (r & Hr).
  destruct (hitung_kpr_total harga_juta bunga dp' tenor ltac:(lia)) as (r' & Hr').
  exists r, r'. split; [exact Hr|]. split; [exact Hr'|].
  destruct (hitung_kpr_returns _ _ _ _ _ Hr) as (_ & Eh & Ed & Ep & _).
  destruct (hitung_kpr_returns _ _ _ _ _ Hr') as (_ & Eh' & Ed' & Ep' & _).
  destruct (cicilan_factor _ _ _ _ _ Hr) as [Ec Hf].
  destruct (cicilan_factor _ _ _ _ _ Hr') as [Ec' _].
  specialize (Hf Ht). pose proof (Zlt_inject _ _ Hdp) as Hq.
  assert (HP : pokok_pinjaman r' < pokok_pinjaman r).
  { rewrite Ep, Ep', Ed, Ed', Eh, Eh'.
    assert (E : forall d, harga_juta * 1000000 - harga_juta * 1000000 * d / 100
                          == harga_juta * 10000 * (100 - d)) by (intros; field).
    rewrite !E. nra. }
  split; [exact HP|]. rewrite Ec, Ec'. nra.
Qed.

Lemma deret_ratio_step (k : nat) (y : Q) :
  0 < y -> y < 1 ->
  inject_Z (Z.of_nat (S k)) * deret (S (S k)) y <
  inject_Z (Z.of_nat (S (S k))) * deret (S k) y.
Proof.
  intros H0 H1. induction k as [|k IH].
  - change (inject_Z (Z.of_nat 1)) with 1. change (inject_Z (Z.of_nat 2)) with 2.
    cbn [deret].
    assert (Hy : 0 < y * (1 - y)) by (apply Qmult_lt_0_compat; lra).
    lra.
  - set (a := deret (S k) y) in *.
    set (b := deret (S (S k)) y) in *.
    change (deret (S (S (S k))) y) with (y * (1 + b)).
    assert (Eb : b == y * (1 + a)) by reflexivity.
    assert (Hb : 0 < b) by (apply deret_pos; [exact H0 | lia]).
    set (N := inject_Z (Z.of_nat (S k))) in *.
    assert (E1 : inject_Z (Z.of_nat (S (S k))) == N + 1).
    { unfold N. rewrite (Nat2Z.inj_succ (S k)), <- Z.add_1_r, inject_Z_plus.
      reflexivity. }
    assert (E2 : inject_Z (Z.of_nat (S (S (S k)))) == N + 2).
    { rewrite (Nat2Z.inj_succ (S (S k))), <- Z.add_1_r, inject_Z_plus, E1.
      change (inject_Z 1) with 1. ring. }
    rewrite E1 in IH. rewrite E1, E2.
    assert (IH' : N * b * y < (N + 1) * (b - y)).
    { assert (R1 : (N + 1) * (b - y) == y * ((N + 1) * a)) by (rewrite Eb; ring).
      assert (R2 : N * b * y == y * (N * b)) by ring.
      rewrite R1, R2. apply Qmult_lt_l; assumption. }
    assert (Hby : 0 < b * (1 - y)) by (apply Qmult_lt_0_compat; lra).
    lra.
Qed.

Lemma deret_ratio (n m : nat) (y : Q) :
  0 < y -> y < 1 -> (0 < n)%nat -> (n < m)%nat ->
  inject_Z (Z.of_nat n) * deret m y < inject_Z (Z.of_nat m) * deret n y.
Proof.
  intros H0 H1 Hn Hnm. induction Hnm as [|m Hle IH].
  - destruct n as [|k]; [lia|]. now apply deret_ratio_step.
  - assert (Hm : (0 < m)%nat) by lia.
    destruct m as [|j]; [lia|].
    pose proof (deret_ratio_step j y H0 H1) as Hstep.
    set (Gn := deret n y) in *. set (Gm := deret (S j) y) in *.
    set (Gm' := deret (S (S j)) y) in *.
    set (qn := inject_Z (Z.of_nat n)) in *.
    set (qm := inject_Z (Z.of_nat (S j))) in *.
    set (qm' := inject_Z (Z.of_nat (S (S j)))) in *.
    assert (Hqn : 0 < qn) by (unfold qn; change 0 with (inject_Z 0); apply Zlt_inject; lia).
    assert (Hqm : 0 < qm) by (unfold qm; change 0 with (inject_Z 0); apply Zlt_inject; lia).
    assert (Hqm' : 0 < qm') by (unfold qm'; change 0 with (inject_Z 0); apply Zlt_inject; lia).
    assert (A : qn * (qm * Gm') < qn * (qm' * Gm)) by (apply Qmult_lt_l; assumption).
    assert (B : qm' * (qn * Gm) < qm' * (qm * Gn)) by (apply Qmult_lt_l; assumption).
    assert (C : qm * (qn * Gm') < qm * (qm' * Gn)) by lra.
    now apply Qmult_lt_l in C.
Qed.

(** X25. A longer tenor costs more: with a positive principal and a
    positive rate, the total paid and the total interest grow strictly with
    the tenor, although the monthly payment falls. *)
Theorem X25_total_interest_grows_with_tenor (harga_juta bunga : Q)
    (dp tenor tenor' : Z) :
  0 < harga_juta * 1000000 - harga_juta * 1000000 * inject_Z dp / 100 ->
  0 < bunga / 12 / 100 ->
  (0 < tenor)%Z ->
  (tenor < tenor')%Z ->
  exists r r',
    hitung_kpr harga_juta dp bunga tenor = ret r /\
    hitung_kpr harga_juta dp bunga tenor' = ret r' /\
    total_bayar r < total_bayar r' /\
    total_bunga r < total_bunga r'.
Proof.
  intros HP Hi Ht Htt.
  destruct (cicilan_as_deret harga_juta bunga dp tenor Hi Ht) as (r & Hr & Ec).
  destruct (cicilan_as_deret harga_juta bunga dp tenor' Hi ltac:(lia))
    as (r' & Hr' & Ec').
  exists r, r'. split; [exact Hr|]. split; [exact Hr'|].
  destruct (hitung_kpr_returns _ _ _ _ _ Hr)
    as (_ & Eh & Ed & Ep & _ & En & _ & Etb & Ebg).
  destruct (hitung_kpr_returns _ _ _ _ _ Hr')
    as (_ & Eh' & Ed' & Ep' & _ & En' & _ & Etb' & Ebg').
  rewrite Eh, Ed in Ep. rewrite Eh', Ed' in Ep'.
  set (P := harga_juta * 1000000 - harga_juta * 1000000 * inject_Z dp / 100) in *.
  set (y := / (1 + bunga / 12 / 100)) in *.
  destruct (discount_between _ Hi) as [Hy0 Hy1]. fold y in Hy0, Hy1.
  set (n := Z.to_nat (tenor * 12)) in *.
  set (m := Z.to_nat (tenor' * 12)) in *.
  assert (Hn : (0 < n)%nat) by (subst n; lia).
  assert (Hnm : (n < m)%nat) by (subst n m; lia).
  pose proof (deret_pos n y Hy0 Hn) as HGn.
  pose proof (deret_pos m y Hy0 ltac:(lia)) as HGm.
  pose proof (deret_ratio n m y Hy0 Hy1 Hn Hnm) as Hratio.
  assert (Eqn : inject_Z (n_bulan r) = inject_Z (Z.of_nat n))
    by (rewrite En; subst n; f_equal; lia).
  assert (Eqm : inject_Z (n_bulan r') = inject_Z (Z.of_nat m))
    by (rewrite En'; subst m; f_equal; lia).
  assert (Htot : total_bayar r < total_bayar r').
  { rewrite Etb, Etb', Ec, Ec', Eqn, Eqm.
    set (qn := inject_Z (Z.of_nat n)) in *. set (qm := inject_Z (Z.of_nat m)) in *.
    assert (R1 : P / deret n y * qn == P * (qn / deret n y)) by (field; lra).
    assert (R2 : P / deret m y * qm == P * (qm / deret m y)) by (field; lra).
    rewrite R1, R2. apply Qmult_lt_l; [exact HP|].
    apply Qlt_shift_div_l; [exact HGm|].
    assert (R3 : qn / deret n y * deret m y == qn * deret m y / deret n y)
      by (field; lra).
    rewrite R3. apply Qlt_shift_div_r; [exact HGn | exact Hratio]. }
  split; [exact Htot|]. rewrite Ebg, Ebg', Ep, Ep'. lra.
Qed.

End KPR_more.

(** ** Repeated filtering, the selectors and the price per square metre *)

Section MoreSidebar.
Import Frame Spec Agg Sidebar.

(** X1. Applying the same criteria to a view again changes nothing, for
    the five predicates and for the whole view with the keyword. *)
Theorem X1_filter_idempotent (c : Criteria) (df : DataFrame) :
  df_filtered c (df_filtered c df) = df_filtered c df /\
  (forall view, filtered_view c df = Some view ->
                filtered_view c view = Some view).
Proof.
  split; [unfold df_filtered; apply list_filter_filter_l; auto|].
  intros view Hv. unfold filtered_view.
  assert (Hsame : df_filtered c view = view).
  { unfold df_filtered. apply filter_all. intros r Hr.
    apply Is_true_true, mask_spec. exact (proj2 (view_rows _ _ _ _ Hv Hr)). }
  rewrite Hsame. unfold filtered_view, df_keyword in *.
  destruct (Text.truthy _); [|reflexivity].
  destruct (Text.re_compile _) as [p|]; [|discriminate].
  injection Hv as <-. f_equal. apply list_filter_filter_l. auto.
Qed.

Lemma foldr_Qmax_elem (x : Q) (xs : list Q) :
  exists v, v ∈ x :: xs /\ v == foldr Qmax x xs.
Proof.
  induction xs as [|a xs (v & Hv & Ev)]; simpl.
  - exists x. split; [apply list_elem_of_here | reflexivity].
  - destruct (Q.max_spec_le a (foldr Qmax x xs)) as [[_ E] | [_ E]].
    + exists v. split.
      * apply elem_of_cons in Hv as [-> | Hv];
          [apply list_elem_of_here | now do 2 apply list_elem_of_further].
      * now rewrite E.
    + exists a. split; [apply list_elem_of_further, list_elem_of_here|].
      now rewrite E.
Qed.

Lemma col_max_elem (l : list (option Q)) (m : Q) :
  col_max l = Some m -> exists v, Some v ∈ l /\ v == m.
Proof.
  unfold col_max. intros Hm.
  destruct (dropna l) as [|x xs] eqn:El; [discriminate|].
  injection Hm as <-. destruct (foldr_Qmax_elem x xs) as (v & Hv & Ev).
  exists v. split; [|exact Ev]. apply elem_of_dropna. now rewrite El.
Qed.

(** X6. The ends of the price slider are prices of the dataset: every
    price lies between them, and each end is the price of some row. The
    same holds for the area slider. *)
Theorem X6_slider_ends (df : DataFrame) (c : Criteria) :
  default_criteria df = Some c ->
  (forall r p, r ∈ df -> price r = Some p ->
     fst (filter_price c) <= p /\ p <= snd (filter_price c)) /\
  (exists r p, r ∈ df /\ price r = Some p /\ p == fst (filter_price c)) /\
  (exists r p, r ∈ df /\ price r = Some p /\ p == snd (filter_price c)) /\
  (forall r a, r ∈ df -> area r = Some a ->
     fst (filter_area c) <= a /\ a <= snd (filter_area c)) /\
  (exists r a, r ∈ df /\ area r = Some a /\ a == fst (filter_area c)) /\
  (exists r a, r ∈ df /\ area r = Some a /\ a == snd (filter_area c)).
Proof.
  intros Hc. unfold default_criteria in Hc.
  destruct (col_min (map price df)) as [lo_p|] eqn:Elp; [|discriminate].
  destruct (col_max (map price df)) as [hi_p|] eqn:Ehp; [|discriminate].
  destruct (col_min (map area df)) as [lo_a|] eqn:Ela; [|discriminate].
  destruct (col_max (map area df)) as [hi_a|] eqn:Eha; [|discriminate].
  destruct (col_min (map bedrooms df)) as [bed|]; [|discriminate].
  destruct (col_min (map bathrooms df)) as [bath|]; [|discriminate].
  simpl in Hc. injection Hc as <-. cbn [filter_price filter_area fst snd].
  assert (Hrow : forall (col : Listing -> option Q) v,
            Some v ∈ map col df -> exists r, r ∈ df /\ col r = Some v).
  { intros col v Hv. change (map col df) with (col <$> df) in Hv.
    apply list_elem_of_fmap in Hv as (r & Er & Hr). eauto. }
  split; [|split; [|split; [|split; [|split]]]].
  - intros r p Hr Ep. split.
    + apply (col_min_le _ _ _ Elp). rewrite <- Ep. now apply column_elem.
    + apply (col_max_ge _ _ _ Ehp). rewrite <- Ep. now apply column_elem.
  - destruct (col_min_elem _ _ Elp) as (v & Hv & Ev).
    destruct (Hrow _ _ Hv) as (r & Hr & Er). eauto.
  - destruct (col_max_elem _ _ Ehp) as (v & Hv & Ev).
    destruct (Hrow _ _ Hv) as (r & Hr & Er). eauto.
  - intros r a Hr Ea. split.
    + apply (col_min_le _ _ _ Ela). rewrite <- Ea. now apply column_elem.
    + apply (col_max_ge _ _ _ Eha). rewrite <- Ea. now apply column_elem.
  - destruct (col_min_elem _ _ Ela) as (v & Hv & Ev).
    destruct (Hrow _ _ Hv) as (r & Hr & Er). eauto.
  - destruct (col_max_elem _ _ Eha) as (v & Hv & Ev).
    destruct (Hrow _ _ Hv) as (r & Hr & Er). eauto.
Qed.

#[local] Instance string_leb_total : Total (fun a b : string => Is_true (String.leb a b)).
Proof.
  intros a b. destruct (String.leb_total a b) as [H | H];
    [left | right]; now apply Is_true_true.
Qed.

(** X7. The choices of the city selector are the cities of the dataset,
    each once, in ascending order; rows without a city add no choice. *)
Theorem X7_kota_options (df : DataFrame) :
  (forall k, k ∈ kota_options df <-> exists r, r ∈ df /\ city r = Some k) /\
  NoDup (kota_options df) /\
  Sorted (fun a b : string => Is_true (String.leb a b)) (kota_options df).
Proof.
  split; [apply kota_options_elem|]. split.
  - unfold kota_options. rewrite merge_sort_Permutation. apply NoDup_remove_dups.
  - unfold kota_options. apply (Sorted_merge_sort _).
Qed.

End MoreSidebar.

Section PricePerSquareMetre.
Import Frame Spec Agg Sidebar.
Variable str_to_float : string -> option Q.

(** X12, in exact arithmetic. When the area range starts above zero and
    the price range does not go below zero, every row of a view of the
    loaded dataset has a price per square metre, and their average is a
    number between the lowest price over the largest area and the highest
    price over the smallest area of the ranges. *)
Theorem X12_avg_price_m2 (raw : list RawListing) (c : Criteria) (view : DataFrame) :
  filtered_view c (load_data str_to_float raw) = Some view ->
  view <> [] ->
  0 < fst (filter_area c) ->
  0 <= fst (filter_price c) ->
  exists m,
    mean (map price_per_m2 view) = Some m /\
    fst (filter_price c) / snd (filter_area c) <= m /\
    m <= snd (filter_price c) / fst (filter_area c).
Proof.
  intros Hv Hne Ha0 Hp0. apply mean_in_range.
  - destruct view; [contradiction | discriminate].
  - intros x Hx. change (map price_per_m2 view) with (price_per_m2 <$> view) in Hx.
    apply list_elem_of_fmap in Hx as (r & -> & Hr).
    destruct (view_rows _ _ _ _ Hv Hr)
      as [Hin (_ & (p & Ep & Hp1 & Hp2) & (a & Ea & Ha1 & Ha2) & _)].
    rewrite (load_data_derived str_to_float raw r Hin), Ep, Ea.
    rewrite derive_positive_area by lra. simpl.
    exists (p / a). split; [reflexivity|].
    assert (Hapos : 0 < a) by lra.
    assert (Hhi : 0 < snd (filter_area c)) by lra.
    split.
    + apply Qle_shift_div_r; [exact Hhi|].
      assert (E : p / a * snd (filter_area c) == p * (snd (filter_area c) / a))
        by (field; lra).
      rewrite E.
      assert (1 <= snd (filter_area c) / a) by (apply Qle_shift_div_l; lra).
      nra.
    + apply Qle_shift_div_l; [exact Ha0|].
      assert (E : p / a * fst (filter_area c) == p * (fst (filter_area c) / a))
        by (field; lra).
      rewrite E.
      assert (fst (filter_area c) / a <= 1) by (apply Qle_shift_div_r; lra).
      assert (0 <= fst (filter_area c) / a) by (apply Qle_shift_div_l; lra).
      nra.
Qed.

End PricePerSquareMetre.

(** ** The further properties at the sample data *)

Section MoreExamples.
Import Frame Spec Agg Sorts Sample Sample2 Sidebar Tab4 KPR.

Lemma X1_filter_idempotent_witness :
  filtered_view mid_range (df_filtered mid_range fifteen)
  = Some (df_filtered mid_range fifteen).
Proof.
  apply (proj2 (X1_filter_idempotent mid_range fifteen)). reflexivity.
Defined.

Lemma mid_range_narrower : narrower mid_range everything.
Proof.
  unfold narrower. split.
  - intros k Hk. apply list_elem_of_In in Hk. apply list_elem_of_In.
    simpl in *. tauto.
  - repeat split; (discriminate || lia).
Defined.

Lemma X3_filter_monotone_witness :
  sublist (df_filtered mid_range fifteen) (df_filtered everything fifteen).
Proof. apply (X3_filter_monotone mid_range everything fifteen mid_range_narrower). Defined.

Lemma X4_view_keeps_labels_witness :
  sublist (index <$> df_filtered mid_range fifteen) (index <$> fifteen) /\
  (NoDup (index <$> fifteen) -> NoDup (index <$> df_filtered mid_range fifteen)).
Proof.
  apply (X4_view_keeps_labels mid_range fifteen). reflexivity.
Defined.

Lemma two_rooms_not_negative (col : Listing -> option Q) :
  col = bedrooms \/ col = bathrooms ->
  forall r b, r ∈ load_data Sample.parse_digits two_raw -> col r = Some b -> 0 <= b.
Proof.
  intros Hcol r b Hin. apply list_elem_of_In in Hin. simpl in Hin.
  destruct Hcol as [-> | ->];
    destruct Hin as [<- | [<- | []]]; intros [= <-]; discriminate.
Defined.

Lemma X5_defaults_keep_complete_rows_witness :
  exists c,
    default_criteria (load_data parse_digits two_raw) = Some c /\
    (normalise parse_digits (raw_listing 0 "Bogor" (RText "950"))
       ∈ df_filtered c (load_data parse_digits two_raw)
     <-> complete (normalise parse_digits (raw_listing 0 "Bogor" (RText "950")))).
Proof.
  eexists. split; [vm_compute; reflexivity|].
  refine (proj1 (X5_defaults_keep_complete_rows _ _ _ _ _) _ _).
  - vm_compute. reflexivity.
  - apply two_rooms_not_negative. now left.
  - apply two_rooms_not_negative. now right.
  - apply list_elem_of_here.
Defined.

Lemma X6_slider_ends_witness :
  exists c,
    default_criteria fifteen = Some c /\
    (exists r p, r ∈ fifteen /\ price r = Some p /\ p == fst (filter_price c)) /\
    (exists r p, r ∈ fifteen /\ price r = Some p /\ p == snd (filter_price c)).
Proof.
  eexists. split; [vm_compute; reflexivity|].
  refine ((fun H => conj (proj1 (proj2 H)) (proj1 (proj2 (proj2 H))))
            (X6_slider_ends fifteen _ _)).
  vm_compute. reflexivity.
Defined.

Lemma X8_keyword_up_to_case_and_space_witness :
  df_keyword "  KEMANG " fifteen = df_keyword "kemang" fifteen /\
  df_keyword (Text.lower (Text.strip "  KEMANG ")) fifteen
  = df_keyword "  KEMANG " fifteen.
Proof.
  apply (X8_keyword_up_to_case_and_space "  KEMANG " "kemang" fifteen). reflexivity.
Defined.

Lemma X9_keyword_keeps_substring_rows_witness :
  kemang ∈ [kemang; bintaro].
Proof.
  apply (X9_keyword_keeps_substring_rows "jl." [kemang; bintaro] [kemang; bintaro] kemang).
  - reflexivity.
  - apply list_elem_of_here.
  - reflexivity.
Defined.

Lemma mid_range_view_not_empty : df_filtered mid_range fifteen <> [].
Proof. intros E. vm_compute in E. discriminate E. Defined.

Lemma X10_kpis_within_ranges_witness :
  exists avg_p med_p avg_a,
    mean (map price (df_filtered mid_range fifteen)) = Some avg_p /\
    median (map price (df_filtered mid_range fifteen)) = Some med_p /\
    mean (map area (df_filtered mid_range fifteen)) = Some avg_a /\
    1000 <= avg_p /\ avg_p <= 2000 /\
    1000 <= med_p /\ med_p <= 2000 /\
    0 <= avg_a /\ avg_a <= 100000.
Proof.
  apply (X10_kpis_within_ranges mid_range fifteen (df_filtered mid_range fifteen));
    [reflexivity | exact mid_range_view_not_empty].
Defined.

Lemma X11_kpis_order_free_witness :
  length [kemang; bintaro] = length [bintaro; kemang] /\
  same_value (mean (map price [kemang; bintaro])) (mean (map price [bintaro; kemang])).
Proof.
  apply (X11_kpis_order_free [kemang; bintaro] [bintaro; kemang] price).
  apply perm_swap.
Defined.

Lemma X12_avg_price_m2_witness :
  exists m,
    mean (map price_per_m2
            (df_filtered bogor_from_50 (load_data parse_digits two_raw))) = Some m /\
    0 / 100000 <= m /\ m <= 100000 / 50.
Proof.
  apply (X12_avg_price_m2 parse_digits two_raw bogor_from_50);
    [reflexivity | intros E; vm_compute in E; discriminate E | reflexivity | discriminate].
Defined.

Lemma X13_city_tables_witness :
  fst <$> city_price merge_desc fifteen ≡ₚ kota_options fifteen /\
  NoDup (fst <$> city_price merge_desc fifteen).
Proof.
  refine ((fun H => conj (proj1 H) (proj1 (proj2 H)))
            (X13_city_tables merge_desc merge_desc_contract fifteen)).
Defined.


Lemma X15_top_listings_prefix_witness :
  top_listings merge_desc 5 fifteen = take 5 (top_listings merge_desc 10 fifteen).
Proof. apply (X15_top_listings_prefix merge_desc 5 10 fifteen). lia. Defined.

Lemma X16_top_listings_all_and_first_witness :
  top_listings merge_desc 30 fifteen ≡ₚ columns9 <$> fifteen.
Proof.
  apply (proj1 (X16_top_listings_all_and_first merge_desc merge_desc_contract 30 fifteen)).
  simpl. lia.
Defined.

Lemma X17_selected_price_witness :
  exists p,
    harga_juta (df_filtered mid_range fifteen) 2 = Some (Some p) /\
    1000 <= p /\ p <= 2000.
Proof.
  refine (proj2 (proj2 (X17_selected_price mid_range fifteen _ 2 _ _)));
    [reflexivity | vm_compute; lia].
Defined.

Lemma X20_interest_positive_witness :
  exists r,
    hitung_kpr 1000 20 8 15 = ret r /\
    pokok_pinjaman r * i_bulanan r < cicilan_bulanan r /\
    pokok_pinjaman r / inject_Z (n_bulan r) < cicilan_bulanan r /\
    pokok_pinjaman r < total_bayar r /\
    0 < total_bunga r.
Proof.
  apply (X20_interest_positive 1000 8 20 15); [reflexivity | reflexivity | lia].
Defined.

Lemma X21_negative_rate_is_rate_zero_witness :
  (exists r r0,
     hitung_kpr (B64.of_Z 50) 0 (B64.of_Z (-5)) 15 = ret r /\
     hitung_kpr (B64.of_Z 50) 0 (B64.of_Z 0) 15 = ret r0 /\
     cicilan_bulanan r = cicilan_bulanan r0 /\
     total_bunga r = total_bunga r0 /\
     SFeqb (total_bunga r) (B64.of_Z 0) = false) /\
  exists r r0,
    hitung_kpr 1000 20 (-5) 15 = ret r /\
    hitung_kpr 1000 20 0 15 = ret r0 /\
    cicilan_bulanan r = cicilan_bulanan r0 /\
    cicilan_bulanan r = pokok_pinjaman r / inject_Z (n_bulan r) /\
    total_bayar r = total_bayar r0 /\
    total_bunga r == 0.
Proof.
  split.
  - pose proof (proj1 (X21_negative_rate_is_rate_zero
                         1000 (-5) (B64.of_Z 50) (B64.of_Z (-5)) 0 15) eq_refl) as H.
    destruct (hitung_kpr (B64.of_Z 50) 0 (B64.of_Z (-5)) 15) as [e | r] eqn:Er;
      destruct (hitung_kpr (B64.of_Z 50) 0 (B64.of_Z 0) 15) as [e0 | r0] eqn:Er0;
      try contradiction; [discriminate Er0|].
    destruct H as (_ & Hc & _ & Hb).
    exists r, r0. split; [reflexivity|]. split; [reflexivity|].
    split; [exact Hc|]. split; [exact Hb|].
    rewrite Hb. injection Er0 as <-. vm_compute. reflexivity.
  - apply (X21_negative_rate_is_rate_zero
             1000 (-5) (B64.of_Z 50) (B64.of_Z (-5)) 20 15); [discriminate | lia].
Defined.


Lemma X23_figures_scale_with_price_witness :
  exists r r',
    hitung_kpr 1000 20 8 15 = ret r /\
    hitung_kpr (3 * 1000) 20 8 15 = ret r' /\
    cicilan_bulanan r' == 3 * cicilan_bulanan r.
Proof.
  destruct (hitung_kpr_total 1000 8 20 15 ltac:(lia)) as (r & Hr).
  destruct (X23_figures_scale_with_price 3 1000 8 20 15 r Hr)
    as (r' & Hr' & _ & Hc & _).
  exists r, r'. auto.
Defined.

Lemma X24_down_payment_monotone_witness :
  exists r r',
    hitung_kpr 1000 20 8 15 = ret r /\
    hitung_kpr 1000 30 8 15 = ret r' /\
    pokok_pinjaman r' < pokok_pinjaman r /\
    cicilan_bulanan r' < cicilan_bulanan r.
Proof.
  apply (X24_down_payment_monotone 1000 8 20 30 15); [reflexivity | lia | lia].
Defined.

Lemma X25_total_interest_grows_with_tenor_witness :
  exists r r',
    hitung_kpr 1000 20 8 15 = ret r /\
    hitung_kpr 1000 20 8 20 = ret r' /\
    total_bayar r < total_bayar r' /\
    total_bunga r < total_bunga r'.
Proof.
  apply (X25_total_interest_grows_with_tenor 1000 8 20 15 20);
    [reflexivity | reflexivity | lia | lia].
Defined.

End MoreExamples.
